(** * ExcelFlow: the upload / preview / process workflow of [ExcelFlowClient]

    A shallow embedding of the React component of [src/app/page.tsx]
    (the [.xlsx]/[.xls]/[.csv] revision): the seven [useState] cells, the
    event handlers, the [useEffect] that owns the progress ticker, and the
    asynchronous callbacks (FileReader, interval, processing delay) that
    the handlers leave outstanding.

    The spreadsheet reader ([XLSX.read], [XLSX.utils.sheet_to_json]) is a
    third-party library: it is a parameter of the development. Numbers are
    IEEE 754 doubles, held as the Standard Library's [spec_float]. *)

From Stdlib Require Import ZArith List String Ascii Bool Lia DecimalString.
From Stdlib Require Import SpecFloat.
Import ListNotations.

Local Open Scope string_scope.
Local Open Scope Z_scope.

(** ** JavaScript built-ins used by the component *)

Module Js.

(** [s.startsWith(p)]. *)
Definition startsWith (s p : string) : bool := String.prefix p s.

(** [s.endsWith(p)]: the last [length p] characters of [s] are [p]. *)
Definition endsWith (s p : string) : bool :=
  (String.length p <=? String.length s)%nat &&
  String.eqb (String.substring (String.length s - String.length p)
                               (String.length p) s) p.

(** [xs.some(f)]. *)
Definition some {A} (f : A -> bool) (xs : list A) : bool := existsb f xs.

(** The double-quote character as a one-character string. *)
Definition dquote : string := String (ascii_of_nat 34) EmptyString.

(** A computation that either returns or throws. *)
Inductive Exc (A : Type) : Type :=
| Return (a : A)
| Throw (msg : string).
Arguments Return {A} a.
Arguments Throw {A} msg.

Definition bind {A B} (c : Exc A) (k : A -> Exc B) : Exc B :=
  match c with
  | Return a => k a
  | Throw m => Throw m
  end.

(** [try { body } catch (error) { handler }] where the handler ignores
    the exception value, as every [catch] of the component does. *)
Definition try_catch {A} (body : Exc A) (handler : A) : A :=
  match body with
  | Return a => a
  | Throw _ => handler
  end.

End Js.

Notation "x <- c ;; k" := (Js.bind c (fun x => k))
  (at level 61, c at next level, right associativity).

(** ** Numbers

    [Number::toString] and the conversion of a decimal numeral to a Number,
    after ECMAScript. The component computes nothing with the numbers of a
    sheet: it only writes them out. *)

Module JsNumber.

(** A Number is an IEEE 754 binary64 value: [prec] bits of mantissa,
    infinities at exponent [emax]. A finite one is [m * 2 ^ e] in the
    canonical form of [valid_binary], in which [of_ratio] returns it. *)
Definition prec : Z := 53.
Definition emax : Z := 1024.

Definition t : Type := spec_float.

Definition eqb (x y : t) : bool :=
  match x, y with
  | S754_zero a, S754_zero b => Bool.eqb a b
  | S754_infinity a, S754_infinity b => Bool.eqb a b
  | S754_nan, S754_nan => true
  | S754_finite a m e, S754_finite b m' e' =>
      Bool.eqb a b && Pos.eqb m m' && Z.eqb e e'
  | _, _ => false
  end.

Definition isFinite (x : t) : bool :=
  match x with
  | S754_zero _ | S754_finite _ _ _ => true
  | S754_infinity _ | S754_nan => false
  end.

(** The Number nearest to the rational [num / den], ties to even;
    a zero on underflow, an infinity on overflow. *)
Definition of_ratio (neg : bool) (num den : positive) : t :=
  SFdiv prec emax (S754_finite neg num 0) (S754_finite false den 0).

(** The Number nearest to [d * 10 ^ e]. *)
Definition of_decimal (neg : bool) (d : N) (e : Z) : t :=
  match d with
  | N0 => S754_zero neg
  | Npos p =>
      if 0 <=? e then of_ratio neg (Z.to_pos (Zpos p * 10 ^ e)) 1
      else of_ratio neg p (Z.to_pos (10 ^ (- e)))
  end.

(** The decimal digits of a positive integer. *)
Definition digits (p : positive) : string :=
  NilEmpty.string_of_uint (Pos.to_uint p).

(** [m * 2 ^ e] as a fraction. *)
Definition ratio (m : positive) (e : Z) : Z * Z :=
  if 0 <=? e then (Zpos m * 2 ^ e, 1) else (Zpos m, 2 ^ (- e)).

(** [num / den] scaled by [10 ^ (- j)], as a fraction. *)
Definition scaled (num den j : Z) : Z * Z :=
  if 0 <=? j then (num, den * 10 ^ j) else (num * 10 ^ (- j), den).

(** The [n] with [10 ^ (n - 1) <= num / den < 10 ^ n]. *)
Definition magnitude (num den : Z) : Z :=
  let d := Z.of_nat (String.length (digits (Z.to_pos num)))
           - Z.of_nat (String.length (digits (Z.to_pos den))) in
  let '(a, b) := scaled num den d in
  if b <=? a then d + 1 else d.

(** The two integers next to [num / den * 10 ^ (k - n)], the nearer one
    first (the even one when both are as near), each with its [n]: the
    upper one may reach [10 ^ k] and is then [10 ^ (k - 1)] with [n + 1]. *)
Definition candidates (num den n k : Z) : list (Z * Z) :=
  let '(a, b) := scaled num den (n - k) in
  let lo := a / b in
  let r := a mod b in
  let up := if lo + 1 =? 10 ^ k then (10 ^ (k - 1), n + 1) else (lo + 1, n) in
  match 2 * r ?= b with
  | Lt => [(lo, n); up]
  | Gt => [up; (lo, n)]
  | Eq => if Z.even lo then [(lo, n); up] else [up; (lo, n)]
  end.

(** Number::toString, step 5: integers [n], [k], [s] with [k] as small as
    possible such that [s * 10 ^ (n - k)] is the Number [m * 2 ^ e], [s]
    having [k] digits. Seventeen digits always suffice. *)
Fixpoint shortest (fuel : nat) (m : positive) (e : Z) (n k : Z) : Z * Z :=
  let '(num, den) := ratio m e in
  let cs := candidates num den n k in
  match find (fun c => eqb (of_decimal false (Z.to_N (fst c)) (snd c - k))
                           (S754_finite false m e)) cs with
  | Some c => c
  | None =>
      match fuel with
      | S fuel' => shortest fuel' m e n (k + 1)
      | O => hd (0, n) cs
      end
  end.

Definition zeros (n : Z) : string :=
  string_of_list_ascii (repeat "0"%char (Z.to_nat n)).

Definition take (n : Z) (s : string) : string := String.substring 0 (Z.to_nat n) s.
Definition drop (n : Z) (s : string) : string :=
  String.substring (Z.to_nat n) (String.length s - Z.to_nat n) s.

(** Number::toString, steps 6 to 10, on the [k] digits of [s]. *)
Definition format (ds : string) (n : Z) : string :=
  let k := Z.of_nat (String.length ds) in
  if (k <=? n) && (n <=? 21) then ds ++ zeros (n - k)
  else if (0 <? n) && (n <=? 21) then take n ds ++ "." ++ drop n ds
  else if (-6 <? n) && (n <=? 0) then "0." ++ zeros (- n) ++ ds
  else
    let e := n - 1 in
    let exponent :=
      (if e <? 0 then "-" else "+") ++ digits (Z.to_pos (Z.abs e)) in
    if k =? 1 then ds ++ "e" ++ exponent
    else take 1 ds ++ "." ++ drop 1 ds ++ "e" ++ exponent.

(** Number::toString(x), radix 10. *)
Definition toString (x : t) : string :=
  match x with
  | S754_nan => "NaN"
  | S754_zero _ => "0"
  | S754_infinity s => if s then "-Infinity" else "Infinity"
  | S754_finite s m e =>
      let '(num, den) := ratio m e in
      let '(sd, n) := shortest 16 m e (magnitude num den) 1 in
      (if s then "-" else "") ++ format (digits (Z.to_pos sd)) n
  end.

(** The Number nearest to a natural number. *)
Definition of_N (n : N) : t := of_decimal false n 0.

End JsNumber.

(** ** Data model *)

Inductive Status : Type :=
| idle | uploading | preview | processing | completed | error.

Definition Status_eqb (a b : Status) : bool :=
  match a, b with
  | idle, idle | uploading, uploading | preview, preview
  | processing, processing | completed, completed | error, error => true
  | _, _ => false
  end.

(** The [type] field of a log entry: ['info' | 'error']. *)
Inductive LogType : Type := info | log_error.

(** Wall-clock readings are supplied by the environment with each event. *)
Definition Timestamp : Type := string.

Record LogEntry : Type := mkLog {
  timestamp : Timestamp;
  message : string;
  type : LogType
}.

(** A DOM [File]: [file_id] stands for the identity of the object (React
    compares effect dependencies with [Object.is]). *)
Record File : Type := mkFile {
  file_id : nat;
  name : string;
  file_type : string;
  bytes : list Byte.byte
}.

(** Cell values produced by the sheet reader: strings, Numbers and
    booleans, and [null]. *)
Inductive Cell : Type :=
| CStr (s : string)
| CNum (x : JsNumber.t)
| CBool (b : bool)
| CNull.

(** A keyed record, in the property order of the JavaScript object. *)
Definition JsObject : Type := list (string * Cell).

Definition Object_keys (o : JsObject) : list string := map fst o.

Record Toast : Type := mkToast {
  title : string;
  description : string;
  variant : string
}.

(** A file offered for download: [link.download] and the blob's text. *)
Record Download : Type := mkDownload {
  download : string;
  content : string
}.

Definition ACCEPTED_FILE_TYPES : list string :=
  [ "application/vnd.openxmlformats-officedocument.spreadsheetml.sheet";
    "application/vnd.ms-excel";
    "text/csv" ].

(** The [useState] cells of [ExcelFlowClient]. *)
Record State : Type := mkState {
  status : Status;
  file : option File;
  progress : Z;
  logs : list LogEntry;
  isDragging : bool;
  sheetHeaders : list string;
  jsonData : list JsObject
}.

(** The number of entries of type ['error'] in a log. *)
Definition is_error_entry (e : LogEntry) : bool :=
  match type e with log_error => true | info => false end.

Definition errorCount (l : list LogEntry) : nat :=
  List.length (filter is_error_entry l).

Definition initialState : State :=
  {| status := idle; file := None; progress := 0; logs := [];
     isDragging := false; sheetHeaders := []; jsonData := [] |}.

(** ** [JSON.stringify(value, null, 2)] and [JSON.parse]

    Strings are byte strings (UTF-8). *)

Module JSON.

#[warnings="-register-all"] Inductive value : Type :=
| Null
| Bool (b : bool)
| Num (x : JsNumber.t)
| Str (s : string)
| Arr (items : list value)
| Obj (members : list (string * value)).

Definition LF : string := String (ascii_of_nat 10) EmptyString.
Definition gap : string := "  ".

Definition hex_digit (n : nat) : ascii :=
  nth n (list_ascii_of_string "0123456789abcdef") "0"%char.

(** One character of a quoted string (ECMAScript QuoteJSONString). *)
Definition escape_char (c : ascii) : string :=
  let n := nat_of_ascii c in
  if (n =? 8)%nat then "\b"
  else if (n =? 9)%nat then "\t"
  else if (n =? 10)%nat then "\n"
  else if (n =? 12)%nat then "\f"
  else if (n =? 13)%nat then "\r"
  else if (n =? 34)%nat then "\" ++ Js.dquote
  else if (n =? 92)%nat then "\\"
  else if (n <? 32)%nat then
    "\u00" ++ String (hex_digit (n / 16)) (String (hex_digit (n mod 16)) EmptyString)
  else String c EmptyString.

Fixpoint escape (s : string) : string :=
  match s with
  | EmptyString => EmptyString
  | String c r => escape_char c ++ escape r
  end.

Definition quote (s : string) : string := Js.dquote ++ escape s ++ Js.dquote.

(** SerializeJSONProperty on a Number: [ToString] of a finite one, [null]
    for the others. *)
Definition number_to_string (x : JsNumber.t) : string :=
  if JsNumber.isFinite x then JsNumber.toString x else "null".

Fixpoint join (sep : string) (l : list string) : string :=
  match l with
  | [] => EmptyString
  | [x] => x
  | x :: r => x ++ sep ++ join sep r
  end.

(** SerializeJSONProperty with a non-empty gap; [indent] is the current
    indentation. *)
Fixpoint serialize (indent : string) (v : value) : string :=
  match v with
  | Null => "null"
  | Bool true => "true"
  | Bool false => "false"
  | Num n => number_to_string n
  | Str s => quote s
  | Arr [] => "[]"
  | Arr items =>
      let indent' := indent ++ gap in
      "[" ++ LF ++ indent'
          ++ join ("," ++ LF ++ indent') (map (serialize indent') items)
          ++ LF ++ indent ++ "]"
  | Obj [] => "{}"
  | Obj members =>
      let indent' := indent ++ gap in
      "{" ++ LF ++ indent'
          ++ join ("," ++ LF ++ indent')
               (map (fun kv => quote (fst kv) ++ ": " ++ serialize indent' (snd kv))
                    members)
          ++ LF ++ indent ++ "}"
  end.

(** [JSON.stringify(v, null, 2)]. *)
Definition stringify (v : value) : string := serialize EmptyString v.

(** *** Parsing *)

Definition code (c : ascii) : nat := nat_of_ascii c.

Definition is_ws (c : ascii) : bool :=
  let n := code c in
  (n =? 32)%nat || (n =? 9)%nat || (n =? 10)%nat || (n =? 13)%nat.

Fixpoint skip_ws (s : list ascii) : list ascii :=
  match s with
  | c :: r => if is_ws c then skip_ws r else s
  | [] => []
  end.

Definition hex_value (c : ascii) : option nat :=
  let n := code c in
  if (48 <=? n)%nat && (n <=? 57)%nat then Some (n - 48)%nat
  else if (97 <=? n)%nat && (n <=? 102)%nat then Some (n - 87)%nat
  else if (65 <=? n)%nat && (n <=? 70)%nat then Some (n - 55)%nat
  else None.

(** The character denoted by a [\uXXXX] escape; code points outside
    ASCII are not represented. *)
Definition unicode_escape (a b c d : ascii) : option ascii :=
  match hex_value a, hex_value b, hex_value c, hex_value d with
  | Some x, Some y, Some z, Some w =>
      let n := (((x * 16 + y) * 16 + z) * 16 + w)%nat in
      if (n <? 128)%nat then Some (ascii_of_nat n) else None
  | _, _, _, _ => None
  end.

Definition simple_escape (e : ascii) : option ascii :=
  let n := code e in
  if (n =? 34)%nat then Some e
  else if (n =? 92)%nat then Some e
  else if (n =? 47)%nat then Some e
  else if (n =? 98)%nat then Some (ascii_of_nat 8)
  else if (n =? 102)%nat then Some (ascii_of_nat 12)
  else if (n =? 110)%nat then Some (ascii_of_nat 10)
  else if (n =? 114)%nat then Some (ascii_of_nat 13)
  else if (n =? 116)%nat then Some (ascii_of_nat 9)
  else None.

(** The characters after an opening quote, up to the closing one. *)
Fixpoint parse_chars (s : list ascii) (acc : list ascii)
  : option (string * list ascii) :=
  match s with
  | [] => None
  | c :: r =>
      if (code c =? 34)%nat then Some (string_of_list_ascii (rev acc), r)
      else if (code c =? 92)%nat then
        match r with
        | e :: r1 =>
            if (code e =? 117)%nat then
              match r1 with
              | h1 :: h2 :: h3 :: h4 :: r2 =>
                  match unicode_escape h1 h2 h3 h4 with
                  | Some u => parse_chars r2 (u :: acc)
                  | None => None
                  end
              | _ => None
              end
            else
              match simple_escape e with
              | Some u => parse_chars r1 (u :: acc)
              | None => None
              end
        | [] => None
        end
      else if (code c <? 32)%nat then None
      else parse_chars r (c :: acc)
  end.

Definition is_digit (c : ascii) : bool :=
  (48 <=? code c)%nat && (code c <=? 57)%nat.

(** The longest run of digits at the head of [s], and what follows it. *)
Fixpoint span_digits (s : list ascii) : list ascii * list ascii :=
  match s with
  | c :: r =>
      if is_digit c then let '(ds, r') := span_digits r in (c :: ds, r')
      else ([], s)
  | [] => ([], [])
  end.

Definition digits_value (ds : list ascii) : N :=
  fold_left (fun acc c => (10 * acc + N.of_nat (code c - 48))%N) ds 0%N.

(** [int]: a zero, or digits that do not begin with a zero. *)
Definition parse_int (s : list ascii) : option (list ascii * list ascii) :=
  match span_digits s with
  | ([], _) => None
  | (c :: ds, r) =>
      if (code c =? 48)%nat then
        match ds with [] => Some ([c], r) | _ :: _ => None end
      else Some (c :: ds, r)
  end.

(** [frac], when there is one: a point and at least one digit. *)
Definition parse_frac (s : list ascii) : option (list ascii * list ascii) :=
  match s with
  | c :: r =>
      if (code c =? 46)%nat then
        match span_digits r with
        | ([], _) => None
        | (ds, r') => Some (ds, r')
        end
      else Some ([], s)
  | [] => Some ([], s)
  end.

(** [exp], when there is one: [e] or [E], a sign or none, and at least
    one digit. *)
Definition parse_exp (s : list ascii) : option (Z * list ascii) :=
  match s with
  | c :: r =>
      if (code c =? 101)%nat || (code c =? 69)%nat then
        let '(neg, r1) :=
          match r with
          | d :: r' =>
              if (code d =? 45)%nat then (true, r')
              else if (code d =? 43)%nat then (false, r')
              else (false, r)
          | [] => (false, r)
          end in
        match span_digits r1 with
        | ([], _) => None
        | (ds, r2) =>
            let e := Z.of_N (digits_value ds) in
            Some (if neg then - e else e, r2)
        end
      else Some (0, s)
  | [] => Some (0, s)
  end.

(** A number of the JSON grammar at the head of [s], as the Number it
    denotes, and what follows it. *)
Definition parse_number (s : list ascii) : option (JsNumber.t * list ascii) :=
  let '(neg, s0) :=
    match s with
    | c :: r => if (code c =? 45)%nat then (true, r) else (false, s)
    | [] => (false, s)
    end in
  match parse_int s0 with
  | Some (int, s1) =>
      match parse_frac s1 with
      | Some (frac, s2) =>
          match parse_exp s2 with
          | Some (e, s3) =>
              Some (JsNumber.of_decimal neg (digits_value (int ++ frac))
                      (e - Z.of_nat (List.length frac)), s3)
          | None => None
          end
      | None => None
      end
  | None => None
  end.

Fixpoint expect (w : list ascii) (s : list ascii) : option (list ascii) :=
  match w, s with
  | [], _ => Some s
  | a :: w', b :: s' => if Ascii.eqb a b then expect w' s' else None
  | _ :: _, [] => None
  end.

Section Composite.
Variable parse_value : list ascii -> option (value * list ascii).

(** The elements of an array after the first, up to the bracket. *)
Fixpoint parse_more_items (fuel : nat) (s : list ascii) (acc : list value)
  : option (list value * list ascii) :=
  match fuel with
  | O => None
  | S fuel' =>
      match skip_ws s with
      | c :: r =>
          if (code c =? 93)%nat then Some (rev acc, r)
          else if (code c =? 44)%nat then
            match parse_value r with
            | Some (v, r') => parse_more_items fuel' r' (v :: acc)
            | None => None
            end
          else None
      | [] => None
      end
  end.

Definition parse_member (s : list ascii)
  : option ((string * value) * list ascii) :=
  match skip_ws s with
  | q :: r =>
      if (code q =? 34)%nat then
        match parse_chars r [] with
        | Some (k, r1) =>
            match skip_ws r1 with
            | c :: r2 =>
                if (code c =? 58)%nat then
                  match parse_value r2 with
                  | Some (v, r3) => Some ((k, v), r3)
                  | None => None
                  end
                else None
            | [] => None
            end
        | None => None
        end
      else None
  | [] => None
  end.

Fixpoint parse_more_members (fuel : nat) (s : list ascii)
    (acc : list (string * value))
  : option (list (string * value) * list ascii) :=
  match fuel with
  | O => None
  | S fuel' =>
      match skip_ws s with
      | c :: r =>
          if (code c =? 125)%nat then Some (rev acc, r)
          else if (code c =? 44)%nat then
            match parse_member r with
            | Some (m, r') => parse_more_members fuel' r' (m :: acc)
            | None => None
            end
          else None
      | [] => None
      end
  end.
End Composite.

(** One JSON value, with leading white space; [fuel] bounds the nesting
    depth and the number of elements of each array and object. *)
Fixpoint parse_value (fuel : nat) (s : list ascii)
  : option (value * list ascii) :=
  match fuel with
  | O => None
  | S fuel' =>
      match skip_ws s with
      | [] => None
      | c :: r =>
          let n := code c in
          if (n =? 34)%nat then
            match parse_chars r [] with
            | Some (str, r') => Some (Str str, r')
            | None => None
            end
          else if (n =? 91)%nat then
            match skip_ws r with
            | d :: r1 =>
                if (code d =? 93)%nat then Some (Arr [], r1)
                else
                  match parse_value fuel' r with
                  | Some (v, r2) =>
                      match parse_more_items (parse_value fuel') fuel' r2 [v] with
                      | Some (vs, r3) => Some (Arr vs, r3)
                      | None => None
                      end
                  | None => None
                  end
            | [] => None
            end
          else if (n =? 123)%nat then
            match skip_ws r with
            | d :: r1 =>
                if (code d =? 125)%nat then Some (Obj [], r1)
                else
                  match parse_member (parse_value fuel') r with
                  | Some (m, r2) =>
                      match parse_more_members (parse_value fuel') fuel' r2 [m] with
                      | Some (ms, r3) => Some (Obj ms, r3)
                      | None => None
                      end
                  | None => None
                  end
            | [] => None
            end
          else if (n =? 116)%nat then
            match expect (list_ascii_of_string "true") (c :: r) with
            | Some r' => Some (Bool true, r')
            | None => None
            end
          else if (n =? 102)%nat then
            match expect (list_ascii_of_string "false") (c :: r) with
            | Some r' => Some (Bool false, r')
            | None => None
            end
          else if (n =? 110)%nat then
            match expect (list_ascii_of_string "null") (c :: r) with
            | Some r' => Some (Null, r')
            | None => None
            end
          else
            match parse_number (c :: r) with
            | Some (x, r') => Some (Num x, r')
            | None => None
            end
      end
  end.

(** [JSON.parse(text)]: one value, then only white space. [None] stands
    for a thrown SyntaxError. The fuel is the text's length plus one. *)
Definition parse (text : string) : option value :=
  let s := list_ascii_of_string text in
  match parse_value (S (List.length s)) s with
  | Some (v, r) => match skip_ws r with [] => Some v | _ :: _ => None end
  | None => None
  end.

End JSON.

(** A cell, a record and a table as JSON values. *)
Definition Cell_to_json (c : Cell) : JSON.value :=
  match c with
  | CStr s => JSON.Str s
  | CNum x => JSON.Num x
  | CBool b => JSON.Bool b
  | CNull => JSON.Null
  end.

Definition JsObject_to_json (o : JsObject) : JSON.value :=
  JSON.Obj (map (fun kv => (fst kv, Cell_to_json (snd kv))) o).

Definition rows_to_json (rows : list JsObject) : JSON.value :=
  JSON.Arr (map JsObject_to_json rows).

(** ** The text [JSON.stringify] writes for a table, character by character

    The same text as [JSON.stringify (rows_to_json rows)], laid out as the
    parser meets it: used to state what the parser reads back. *)

Module JSONText.
Import JSON.

Abbreviation L := list_ascii_of_string.

(** The text of a cell does not depend on the indentation. *)
Definition cell_text (c : Cell) : list ascii :=
  L (serialize EmptyString (Cell_to_json c)).

Definition member_text (kv : string * Cell) : list ascii :=
  L (quote (fst kv)) ++ L ": " ++ cell_text (snd kv).

Definition next_member (kv : string * Cell) : list ascii :=
  L ("," ++ LF ++ "    ") ++ member_text kv.

Definition row_text (row : JsObject) : list ascii :=
  match row with
  | [] => L "{}"
  | m :: ms =>
      L ("{" ++ LF ++ "    ") ++ member_text m ++ flat_map next_member ms
        ++ L (LF ++ "  }")
  end.

Definition next_row (row : JsObject) : list ascii :=
  L ("," ++ LF ++ "  ") ++ row_text row.

Definition rows_text (rows : list JsObject) : list ascii :=
  match rows with
  | [] => L "[]"
  | r :: rs =>
      L ("[" ++ LF ++ "  ") ++ row_text r ++ flat_map next_row rs
        ++ L (LF ++ "]")
  end.

(** What follows a value in the text [serialize] writes: a comma or a line
    feed. *)
Definition sep_next (rest : list ascii) : Prop :=
  exists c r, rest = c :: r /\ (c = ","%char \/ c = "010"%char).

(** A cell that [JSON.parse] reads back from the text that
    [JSON.stringify] writes for it. Strings, booleans and [null] are. A
    Number is when the numeral [Number::toString] writes for it denotes it
    again: so the language defines that numeral, for every finite Number.
    The negative zero is written as [0], an infinity and NaN as [null]:
    these are not read back. *)
Definition reads_back (c : Cell) : bool :=
  match c with
  | CNum x =>
      match parse_number (L (number_to_string x)) with
      | Some (y, []) => JsNumber.eqb x y
      | _ => false
      end
  | CStr _ | CBool _ | CNull => true
  end.

Definition row_reads_back (row : JsObject) : bool :=
  forallb (fun kv => reads_back (snd kv)) row.

(** The text starts like a number: a digit or a minus sign. *)
Definition starts_number (s : list ascii) : Prop :=
  match s with
  | c :: _ => is_digit c = true \/ c = "-"%char
  | [] => False
  end.

End JSONText.

(** ** The component's world

    Besides the [useState] cells, what the handlers leave outstanding in
    the browser and what they have handed to it. *)

Record World : Type := mkWorld {
  st : State;
  (** the interval set up by the effect, with the [file] its callback
      closes over *)
  interval : option File;
  (** FileReaders whose [load]/[error] event is still to come *)
  readers : list File;
  (** [handleProcess] calls suspended at their [await], each with the
      [jsonData] it closes over *)
  timeouts : list (list JsObject);
  (** notifications shown, oldest first *)
  toasts : list Toast;
  (** files offered for download, oldest first *)
  downloads : list Download
}.

Definition initialWorld : World :=
  {| st := initialState; interval := None; readers := []; timeouts := [];
     toasts := []; downloads := [] |}.

Definition with_st (f : State -> State) (w : World) : World :=
  {| st := f (st w); interval := interval w; readers := readers w;
     timeouts := timeouts w; toasts := toasts w; downloads := downloads w |}.

Definition setStatus (s : Status) : World -> World :=
  with_st (fun x =>
    {| status := s; file := file x; progress := progress x; logs := logs x;
       isDragging := isDragging x; sheetHeaders := sheetHeaders x;
       jsonData := jsonData x |}).

Definition setFile (f : option File) : World -> World :=
  with_st (fun x =>
    {| status := status x; file := f; progress := progress x; logs := logs x;
       isDragging := isDragging x; sheetHeaders := sheetHeaders x;
       jsonData := jsonData x |}).

Definition setProgress (p : Z) : World -> World :=
  with_st (fun x =>
    {| status := status x; file := file x; progress := p; logs := logs x;
       isDragging := isDragging x; sheetHeaders := sheetHeaders x;
       jsonData := jsonData x |}).

Definition setLogs (f : list LogEntry -> list LogEntry) : World -> World :=
  with_st (fun x =>
    {| status := status x; file := file x; progress := progress x;
       logs := f (logs x);
       isDragging := isDragging x; sheetHeaders := sheetHeaders x;
       jsonData := jsonData x |}).

Definition setIsDragging (b : bool) : World -> World :=
  with_st (fun x =>
    {| status := status x; file := file x; progress := progress x; logs := logs x;
       isDragging := b; sheetHeaders := sheetHeaders x;
       jsonData := jsonData x |}).

Definition setSheetHeaders (h : list string) : World -> World :=
  with_st (fun x =>
    {| status := status x; file := file x; progress := progress x; logs := logs x;
       isDragging := isDragging x; sheetHeaders := h;
       jsonData := jsonData x |}).

Definition setJsonData (d : list JsObject) : World -> World :=
  with_st (fun x =>
    {| status := status x; file := file x; progress := progress x; logs := logs x;
       isDragging := isDragging x; sheetHeaders := sheetHeaders x;
       jsonData := d |}).

Definition toast (t : Toast) (w : World) : World :=
  {| st := st w; interval := interval w; readers := readers w;
     timeouts := timeouts w; toasts := toasts w ++ [t]; downloads := downloads w |}.

Definition setInterval (f : File) (w : World) : World :=
  {| st := st w; interval := Some f; readers := readers w;
     timeouts := timeouts w; toasts := toasts w; downloads := downloads w |}.

Definition clearInterval (w : World) : World :=
  {| st := st w; interval := None; readers := readers w;
     timeouts := timeouts w; toasts := toasts w; downloads := downloads w |}.

Definition setReaders (r : list File) (w : World) : World :=
  {| st := st w; interval := interval w; readers := r;
     timeouts := timeouts w; toasts := toasts w; downloads := downloads w |}.

(** [reader.readAsArrayBuffer(f)]: one more read outstanding. *)
Definition readAsArrayBuffer (f : File) (w : World) : World :=
  setReaders (readers w ++ [f]) w.

Definition setTimeouts (t : list (list JsObject)) (w : World) : World :=
  {| st := st w; interval := interval w; readers := readers w;
     timeouts := t; toasts := toasts w; downloads := downloads w |}.

(** The anchor click of [simulateBackendProcessing]. *)
Definition offerDownload (d : Download) (w : World) : World :=
  {| st := st w; interval := interval w; readers := readers w;
     timeouts := timeouts w; toasts := toasts w; downloads := downloads w ++ [d] |}.

(** Statement sequencing, in source order. *)
Notation "w '|>' f" := (f w) (at level 45, left associativity, only parsing).

(** [addLog(message, type)]: the new entry goes to the front. *)
Definition addLog (now : Timestamp) (msg : string) (ty : LogType) : World -> World :=
  setLogs (fun prev => {| timestamp := now; message := msg; type := ty |} :: prev).

(** ** Handlers *)

Definition isAccepted (selectedFile : File) : bool :=
  Js.some (fun ty => Js.startsWith (file_type selectedFile) ty) ACCEPTED_FILE_TYPES
  || Js.endsWith (name selectedFile) ".xlsx"
  || Js.endsWith (name selectedFile) ".xls"
  || Js.endsWith (name selectedFile) ".csv".

Definition invalidFormatToast : Toast :=
  {| title := "Formato de Archivo Inválido";
     description := "Por favor, sube un archivo de Excel o CSV válido.";
     variant := "destructive" |}.

Definition invalidFormatMsg (f : File) : string :=
  "Tipo de archivo inválido: " ++ name f
    ++ ". Por favor, sube un archivo .xlsx, .xls o .csv.".

Definition handleFileSelect (now : Timestamp) (selectedFile : option File)
    (w : World) : World :=
  match selectedFile with
  | None => w
  | Some f =>
      if negb (isAccepted f) then
        w |> addLog now (invalidFormatMsg f) log_error
          |> toast invalidFormatToast
          |> setStatus error
      else
        w |> addLog now ("Archivo seleccionado: " ++ Js.dquote ++ name f ++ Js.dquote) info
          |> setFile (Some f)
          |> setProgress 0
          |> setSheetHeaders []
          |> setJsonData []
          |> readAsArrayBuffer f
          |> setStatus uploading
  end.

Definition emptyFileMsg : string :=
  "El archivo seleccionado está vacío o no tiene datos.".

Definition emptyFileToast : Toast :=
  {| title := "Archivo Vacío";
     description := "El archivo de Excel o CSV seleccionado parece estar vacío.";
     variant := "destructive" |}.

Definition corruptFileMsg : string :=
  "No se pudo analizar el archivo. Podría estar corrupto o en un formato no compatible.".

Definition corruptFileToast : Toast :=
  {| title := "Error al Analizar el Archivo";
     description := corruptFileMsg;
     variant := "destructive" |}.

Definition readFailureMsg : string := "Ocurrió un error al leer el archivo.".

Definition readFailureToast : Toast :=
  {| title := "Error al Leer el Archivo";
     description := readFailureMsg;
     variant := "destructive" |}.

Definition parsedOkMsg : string :=
  "Datos del archivo analizados con éxito. Mostrando todos los datos de la hoja.".

(** What the [catch] block of [reader.onload] does. *)
Definition onload_catch (now : Timestamp) (w : World) : World :=
  w |> addLog now corruptFileMsg log_error
    |> toast corruptFileToast
    |> setStatus error.

(** [reader.onerror]. *)
Definition reader_onerror (now : Timestamp) (w : World) : World :=
  w |> addLog now readFailureMsg log_error
    |> toast readFailureToast
    |> setStatus error.

(** The callback of the interval: the updater passed to [setProgress],
    with [f] the file the effect closed over. *)
Definition interval_callback (now : Timestamp) (f : File) (w : World) : World :=
  let prev := progress (st w) in
  if prev >=? 100 then
    w |> clearInterval
      |> setStatus preview
      |> addLog now (Js.dquote ++ name f ++ Js.dquote
                       ++ " subido con éxito. Listo para previsualizar.") info
      |> setProgress 100
  else
    w |> setProgress (prev + 10).

Definition same_file (a b : option File) : bool :=
  match a, b with
  | None, None => true
  | Some x, Some y => (file_id x =? file_id y)%nat
  | _, _ => false
  end.

(** [useEffect(..., [status, file, addLog])] after a render: when [status]
    or [file] differ from the previous render, the previous cleanup runs
    and then the effect body. *)
Definition useEffect (now : Timestamp) (prev : State) (w : World) : World :=
  if Status_eqb (status prev) (status (st w))
     && same_file (file prev) (file (st w))
  then w
  else
    let w := clearInterval w in
    match status (st w), file (st w) with
    | uploading, Some f =>
        w |> addLog now "Iniciando la carga del archivo..." info
          |> setInterval f
    | _, _ => w
    end.

Definition noDataToast : Toast :=
  {| title := "No Hay Datos para Procesar";
     description := "No hay datos para procesar. Por favor, sube un archivo válido.";
     variant := "destructive" |}.

(** [handleProcess] up to its [await]. *)
Definition handleProcess (now : Timestamp) (w : World) : World :=
  if (List.length (jsonData (st w)) =? 0)%nat then
    w |> toast noDataToast
  else
    w |> setStatus processing
      |> addLog now "Procesamiento de datos iniciado..." info
      |> setTimeouts (timeouts w ++ [jsonData (st w)]).

Definition processingFailedToast : Toast :=
  {| title := "Falló el Procesamiento";
     description := "No se pudo procesar y generar el archivo JSON.";
     variant := "destructive" |}.

(** [simulateBackendProcessing(dataToProcess)]. [dom_ok] tells whether the
    browser calls of the [try] block (Blob, object URL, anchor) go
    through; when one throws, it does so before the anchor is clicked. *)
Definition simulateBackendProcessing (now : Timestamp) (dom_ok : bool)
    (dataToProcess : list JsObject) (w : World) : World * bool :=
  let w := w |> addLog now
    "Los datos ya están estructurados. Preparando para la descarga..." info in
  Js.try_catch
    (let jsonString := JSON.stringify (rows_to_json dataToProcess) in
     clicked <- (if dom_ok then Js.Return tt else Js.Throw "DOMException") ;;
     Js.Return
       (w |> offerDownload {| download := "processed_data.json";
                              content := jsonString |}
          |> addLog now "Se generó y descargó processed_data.json con éxito." info,
        true))
    (w |> addLog now "No se pudo generar el archivo JSON." log_error, false).

(** [handleProcess] after its [await]: the delay has elapsed. *)
Definition handleProcess_resume (now : Timestamp) (dom_ok : bool)
    (data : list JsObject) (w : World) : World :=
  let '(w, success) := simulateBackendProcessing now dom_ok data w in
  if success then
    w |> setStatus completed
      |> addLog now "Procesamiento de datos completado con éxito." info
  else
    w |> setStatus error
      |> toast processingFailedToast
      |> addLog now "Falló el procesamiento de datos." log_error.

Definition handleReset (w : World) : World :=
  w |> setStatus idle
    |> setFile None
    |> setProgress 0
    |> setLogs (fun _ => [])
    |> setSheetHeaders []
    |> setJsonData [].

Definition handleDragEnter : World -> World := setIsDragging true.
Definition handleDragLeave : World -> World := setIsDragging false.
Definition handleDragOver (w : World) : World := w.

Definition handleDrop (now : Timestamp) (droppedFile : option File)
    (w : World) : World :=
  w |> setIsDragging false
    |> handleFileSelect now droppedFile.

(** ** The sheet reader and [reader.onload] *)

Section Reader.

Variable Worksheet : Type.

Record Workbook : Type := mkWorkbook {
  SheetNames : list string;
  Sheets : string -> option Worksheet
}.

(** [XLSX.read(data, { type: 'array' })]. *)
Variable XLSX_read : list Byte.byte -> Js.Exc Workbook.

(** [XLSX.utils.sheet_to_json(worksheet)]; the worksheet is [undefined]
    when the workbook has no sheet of that name. *)
Variable sheet_to_json : option Worksheet -> Js.Exc (list JsObject).

(** The [try] block of [reader.onload], up to [parsedData]. *)
Definition decode (data : option (list Byte.byte)) : Js.Exc (list JsObject) :=
  d <- match data with
       | Some d => Js.Return d
       | None => Js.Throw "No se pudo leer el archivo."
       end ;;
  workbook <- XLSX_read d ;;
  let sheetName :=
    match SheetNames workbook with n :: _ => n | [] => "undefined" end in
  let worksheet := Sheets workbook sheetName in
  sheet_to_json worksheet.

(** [parsedData.length > 0 && Object.keys(parsedData[0]).length > 0]. *)
Definition hasData (parsedData : list JsObject) : bool :=
  (0 <? List.length parsedData)%nat
  && (0 <? List.length (Object_keys (hd [] parsedData)))%nat.

(** [reader.onload], with [data] standing for [e.target?.result]. *)
Definition reader_onload (now : Timestamp) (data : option (list Byte.byte))
    (w : World) : World :=
  Js.try_catch
    (parsedData <- decode data ;;
     Js.Return
       (if hasData parsedData then
          w |> setSheetHeaders (Object_keys (hd [] parsedData))
            |> setJsonData parsedData
            |> addLog now parsedOkMsg info
        else
          w |> addLog now emptyFileMsg log_error
            |> toast emptyFileToast
            |> setStatus error))
    (onload_catch now w).

End Reader.

(** ** What is rendered: the controls the user can reach *)

(** [renderContent] shows the drop zone and the file input for ['idle'] and
    ['error'] only. *)
Definition dropZoneRendered (s : State) : bool :=
  match status s with
  | idle | error => true
  | _ => false
  end.

Inductive Footer : Type :=
| ConfirmButton (disabled : bool)   (* onClick = handleProcess *)
| ProcessingButton                  (* always disabled *)
| StartOverButton                   (* onClick = handleReset *)
| RetryButton                       (* onClick = handleReset *)
| NoFooter.

Definition renderFooter (s : State) : Footer :=
  match status s with
  | preview => ConfirmButton (List.length (jsonData s) =? 0)%nat
  | processing => ProcessingButton
  | completed => StartOverButton
  | error => RetryButton
  | _ => NoFooter
  end.

(** ** Events *)

Inductive Event : Type :=
| FileSelected (f : option File)    (* the input's onChange *)
| DragEnter
| DragLeave
| DragOver
| Dropped (f : option File)
| ConfirmClicked
| ResetClicked
| ReaderLoaded                      (* the oldest outstanding read succeeds *)
| ReaderFailed                      (* the oldest outstanding read fails *)
| IntervalFired
| DelayElapsed (dom_ok : bool).     (* the oldest suspended handleProcess resumes *)

(** An event can occur when its control is rendered and not disabled, or
    when its callback is outstanding. *)
Definition enabled (ev : Event) (w : World) : bool :=
  match ev with
  | FileSelected _ | DragEnter | DragLeave | DragOver | Dropped _ =>
      dropZoneRendered (st w)
  | ConfirmClicked =>
      match renderFooter (st w) with
      | ConfirmButton disabled => negb disabled
      | _ => false
      end
  | ResetClicked =>
      match renderFooter (st w) with
      | StartOverButton | RetryButton => true
      | _ => false
      end
  | ReaderLoaded | ReaderFailed =>
      match readers w with _ :: _ => true | [] => false end
  | IntervalFired =>
      match interval w with Some _ => true | None => false end
  | DelayElapsed _ =>
      match timeouts w with _ :: _ => true | [] => false end
  end.

(** The events the user can cause, as opposed to outstanding callbacks. *)
Definition is_callback (ev : Event) : bool :=
  match ev with
  | ReaderLoaded | ReaderFailed | IntervalFired | DelayElapsed _ => true
  | _ => false
  end.

Section Machine.

Variable Worksheet : Type.
Variable XLSX_read : list Byte.byte -> Js.Exc (Workbook Worksheet).
Variable sheet_to_json : option Worksheet -> Js.Exc (list JsObject).

Abbreviation decode := (decode Worksheet XLSX_read sheet_to_json).
Abbreviation reader_onload := (reader_onload Worksheet XLSX_read sheet_to_json).

(** The handler an event runs. *)
Definition handle (now : Timestamp) (ev : Event) (w : World) : World :=
  match ev with
  | FileSelected f => handleFileSelect now f w
  | DragEnter => handleDragEnter w
  | DragLeave => handleDragLeave w
  | DragOver => handleDragOver w
  | Dropped f => handleDrop now f w
  | ConfirmClicked => handleProcess now w
  | ResetClicked => handleReset w
  | ReaderLoaded =>
      match readers w with
      | f :: rest => reader_onload now (Some (bytes f)) (setReaders rest w)
      | [] => w
      end
  | ReaderFailed =>
      match readers w with
      | f :: rest => reader_onerror now (setReaders rest w)
      | [] => w
      end
  | IntervalFired =>
      match interval w with
      | Some f => interval_callback now f w
      | None => w
      end
  | DelayElapsed dom_ok =>
      match timeouts w with
      | data :: rest => handleProcess_resume now dom_ok data (setTimeouts rest w)
      | [] => w
      end
  end.

(** One event, taken as atomic: the handler runs to its end (or to its
    [await]), then the render and its effect. *)
Definition dispatch (now : Timestamp) (ev : Event) (w : World) : World :=
  useEffect now (st w) (handle now ev w).

(** A run of timestamped events, each of which must be enabled. *)
Fixpoint exec (evs : list (Timestamp * Event)) (w : World) : option World :=
  match evs with
  | [] => Some w
  | (now, ev) :: rest =>
      if enabled ev w then exec rest (dispatch now ev w) else None
  end.

Inductive reachable : World -> Prop :=
| reach_init : reachable initialWorld
| reach_step w now ev :
    reachable w -> enabled ev w = true -> reachable (dispatch now ev w).

(** What holds of every reachable world. *)
Record Inv (w : World) : Prop := mkInv {
  inv_interval_uploading :
    status (st w) = uploading -> exists f, interval w = Some f /\ file (st w) = Some f;
  inv_interval_none :
    status (st w) <> uploading -> interval w = None;
  inv_readers_one : (List.length (readers w) <= 1)%nat;
  inv_readers :
    readers w <> [] ->
    (status (st w) = uploading \/ status (st w) = preview) /\ jsonData (st w) = [];
  inv_timeouts_processing :
    status (st w) = processing -> timeouts w = [jsonData (st w)];
  inv_timeouts_none :
    status (st w) <> processing -> timeouts w = [];
  inv_progress :
    0 <= progress (st w) <= 100 /\ progress (st w) mod 10 = 0
}.

End Machine.

(** ** The status graph

    The moves between statuses the handlers make: a submission leads to
    uploading or error, the interval to preview, the confirmation to
    processing, the resumed [handleProcess] to completed or error, the
    reset to idle. *)
Definition allowed (a b : Status) : bool :=
  match a, b with
  | idle, (idle | uploading | error) => true
  | uploading, (uploading | preview | error) => true
  | preview, (preview | processing | error) => true
  | processing, (completed | error) => true
  | completed, idle => true
  | error, (error | idle | uploading) => true
  | _, _ => false
  end.

(** ** The rest of the rendering *)

(** The card of the log is rendered when [logs.length > 0], the footer of
    the main card when [status !== 'idle']. *)
Definition logCardRendered (s : State) : bool := (0 <? List.length (logs s))%nat.
Definition footerRendered (s : State) : bool := negb (Status_eqb (status s) idle).

(** ** How the cells of the state hang together *)

(** A download the component can have offered: the JSON text of some
    table with at least one row, under the fixed file name. *)
Definition well_formed_download (d : Download) : Prop :=
  download d = "processed_data.json" /\
  exists rows, rows <> [] /\ content d = JSON.stringify (rows_to_json rows).

Section Coherence.

Variable Worksheet : Type.
Variable XLSX_read : list Byte.byte -> Js.Exc (Workbook Worksheet).
Variable sheet_to_json : option Worksheet -> Js.Exc (list JsObject).

(** What holds of every reachable world besides [Inv]. *)
Record Coherent (w : World) : Prop := mkCoherent {
  coh_idle :
    status (st w) = idle ->
    file (st w) = None /\ progress (st w) = 0 /\ logs (st w) = [] /\
    sheetHeaders (st w) = [] /\ jsonData (st w) = [];
  coh_file :
    status (st w) <> idle -> status (st w) <> error -> file (st w) <> None;
  coh_reader :
    forall f rest, readers w = f :: rest -> file (st w) = Some f;
  coh_table :
    jsonData (st w) <> [] ->
    exists f, file (st w) = Some f /\
      decode Worksheet XLSX_read sheet_to_json (Some (bytes f))
        = Js.Return (jsonData (st w)) /\
      hasData (jsonData (st w)) = true /\
      sheetHeaders (st w) = Object_keys (hd [] (jsonData (st w)));
  coh_no_table :
    jsonData (st w) = [] -> sheetHeaders (st w) = [];
  coh_progress :
    status (st w) = preview \/ status (st w) = processing \/
    status (st w) = completed -> progress (st w) = 100;
  coh_data :
    status (st w) = processing \/ status (st w) = completed ->
    jsonData (st w) <> [];
  coh_timeouts : Forall (fun d => d <> []) (timeouts w);
  coh_downloads : Forall well_formed_download (downloads w);
  coh_toasts : Forall (fun t => variant t = "destructive") (toasts w)
}.

End Coherence.

(** ** The earlier component

    The file holds an earlier, English version of the component before the
    one above. Its check of a submitted file compares the media type with
    two entries by equality and knows two extensions. *)
Module V1.

Definition ACCEPTED_FILE_TYPES : list string :=
  [ "application/vnd.openxmlformats-officedocument.spreadsheetml.sheet";
    "application/vnd.ms-excel" ].

(** [xs.includes(s)]. *)
Definition includes (xs : list string) (s : string) : bool :=
  existsb (String.eqb s) xs.

(** The negation of the condition under which [handleFileSelect] rejects. *)
Definition isAccepted (selectedFile : File) : bool :=
  negb (negb (includes ACCEPTED_FILE_TYPES (file_type selectedFile))
        && negb (Js.endsWith (name selectedFile) ".xlsx")
        && negb (Js.endsWith (name selectedFile) ".xls")).

End V1.

(** ** A sample reader

    A small comma-separated-values reader with the interface of the sheet
    library, to run the component on concrete files. A NUL byte makes it
    throw; a cell of digits is read as the Number it denotes, as the
    library does, any other cell as text. *)

Module SampleReader.

Definition Worksheet : Type := list (list string).

Fixpoint split (sep : ascii) (s : list ascii) (cur : list ascii)
  : list (list ascii) :=
  match s with
  | [] => [rev cur]
  | c :: r =>
      if Ascii.eqb c sep then rev cur :: split sep r []
      else split sep r (c :: cur)
  end.

Definition is_nul (b : Byte.byte) : bool :=
  (nat_of_ascii (ascii_of_byte b) =? 0)%nat.

Definition non_blank (line : list ascii) : bool :=
  match line with [] => false | _ :: _ => true end.

Definition grid (bs : list Byte.byte) : Worksheet :=
  map (fun line => map string_of_list_ascii (split ","%char line []))
      (filter non_blank (split (ascii_of_nat 10) (map ascii_of_byte bs) [])).

Definition XLSX_read (bs : list Byte.byte) : Js.Exc (Workbook Worksheet) :=
  if existsb is_nul bs then Js.Throw "Unsupported file"
  else
    Js.Return
      {| SheetNames := ["Sheet1"];
         Sheets := fun n => if String.eqb n "Sheet1" then Some (grid bs) else None |}.

Definition cell (text : string) : Cell :=
  match list_ascii_of_string text with
  | [] => CStr text
  | ds =>
      if forallb JSON.is_digit ds
      then CNum (JsNumber.of_N (JSON.digits_value ds))
      else CStr text
  end.

Definition sheet_to_json (ws : option Worksheet) : Js.Exc (list JsObject) :=
  Js.Return
    match ws with
    | Some (hdr :: rows) => map (fun r => combine hdr (map cell r)) rows
    | _ => []
    end.

Definition decode := decode Worksheet XLSX_read sheet_to_json.
Definition dispatch := dispatch Worksheet XLSX_read sheet_to_json.
Definition exec := exec Worksheet XLSX_read sheet_to_json.
Definition reachable := reachable Worksheet XLSX_read sheet_to_json.

(** The world a run of events from the initial world ends in (the initial
    world itself when some event of the run is not enabled). *)
Definition run (evs : list (Timestamp * Event)) : World :=
  match exec evs initialWorld with
  | Some w => w
  | None => initialWorld
  end.

End SampleReader.

(** The bytes of a text. *)
Definition bytes_of (s : string) : list Byte.byte := list_byte_of_string s.

Definition csv_ab : File :=
  {| file_id := 1; name := "data.csv"; file_type := "text/csv";
     bytes := bytes_of ("a,b" ++ JSON.LF ++ "1,2" ++ JSON.LF) |}.

Definition empty_xlsx : File :=
  {| file_id := 2; name := "empty.xlsx"; file_type := EmptyString; bytes := [] |}.

Definition notes_txt : File :=
  {| file_id := 3; name := "notes.txt"; file_type := "text/plain";
     bytes := bytes_of "hello" |}.

Definition macros_xlsm : File :=
  {| file_id := 4; name := "macros.xlsm";
     file_type := "application/vnd.ms-excel.sheet.macroEnabled.12";
     bytes := bytes_of "PK" |}.

Definition broken_xlsx : File :=
  {| file_id := 5; name := "broken.xlsx";
     file_type := "application/vnd.openxmlformats-officedocument.spreadsheetml.sheet";
     bytes := [Byte.x50; Byte.x4b; Byte.x00; Byte.x00] |}.

Definition fires (n : nat) : list (Timestamp * Event) :=
  repeat ("09:00:01", IntervalFired) n.

(** Uploading [data.csv], three firings of the interval in. *)
Definition uploading_world : World :=
  SampleReader.run (("09:00:00", FileSelected (Some csv_ab)) :: fires 3).

(** Preview reached while the read of [data.csv] is still outstanding. *)
Definition preview_without_data : World :=
  SampleReader.run (("09:00:00", FileSelected (Some csv_ab)) :: fires 11).

(** Processing [data.csv]: read, uploaded and confirmed. *)
Definition processing_world : World :=
  SampleReader.run
    (("09:00:00", FileSelected (Some csv_ab)) :: ("09:00:00", ReaderLoaded)
       :: fires 11 ++ [("09:00:03", ConfirmClicked)]).

(** The error state after [notes.txt] was rejected. *)
Definition error_world : World :=
  SampleReader.run [("09:00:00", FileSelected (Some notes_txt))].

(** The same, with a drag hovering over the drop zone. *)
Definition error_dragging : World :=
  SampleReader.run
    [("09:00:00", FileSelected (Some notes_txt)); ("09:00:05", DragEnter)].

(** [data.csv] read and uploaded: the preview of its table. *)
Definition preview_world : World :=
  SampleReader.run
    (("09:00:00", FileSelected (Some csv_ab)) :: ("09:00:00", ReaderLoaded)
       :: fires 11).

(** Idle again: the reset of the error state, a drag still hovering. *)
Definition idle_again : World :=
  SampleReader.run
    [("09:00:00", FileSelected (Some notes_txt)); ("09:00:05", DragEnter);
     ("09:00:09", ResetClicked)].

(** * Properties *)

(** ** Basic facts *)

Lemma Status_eqb_spec a b : reflect (a = b) (Status_eqb a b).
Proof. destruct a, b; simpl; constructor; congruence. Qed.

Lemma Status_eqb_refl a : Status_eqb a a = true.
Proof. now destruct a. Qed.

Lemma same_file_refl f : same_file f f = true.
Proof. destruct f; simpl; auto using Nat.eqb_refl. Qed.

Lemma useEffect_same now s w :
  status s = status (st w) -> file s = file (st w) -> useEffect now s w = w.
Proof.
  intros Hs Hf. unfold useEffect.
  now rewrite Hs, Hf, Status_eqb_refl, same_file_refl.
Qed.

Lemma hasData_false rows :
  hasData rows = false <-> rows = [] \/ Object_keys (hd [] rows) = [].
Proof.
  unfold hasData. destruct rows as [|[|kv o] rest]; simpl; split; auto.
  - discriminate.
  - intros [H | H]; discriminate.
Qed.

Lemma exec_app Worksheet XLSX_read sheet_to_json evs1 evs2 w :
  exec Worksheet XLSX_read sheet_to_json (evs1 ++ evs2) w =
  match exec Worksheet XLSX_read sheet_to_json evs1 w with
  | Some w' => exec Worksheet XLSX_read sheet_to_json evs2 w'
  | None => None
  end.
Proof.
  revert w. induction evs1 as [|[now ev] evs1 IH]; intros w; simpl; auto.
  destruct (enabled ev w); auto.
Qed.

Lemma accepted_by_extension f :
  Js.endsWith (name f) ".xlsx" = true \/
  Js.endsWith (name f) ".xls" = true \/
  Js.endsWith (name f) ".csv" = true ->
  isAccepted f = true.
Proof.
  unfold isAccepted. intros [H | [H | H]]; rewrite H;
    rewrite ?orb_true_r; reflexivity.
Qed.

(** ** [JSON.parse] reads back what [JSON.stringify] writes *)

Module JSONFacts.
Import JSON JSONText.
Local Close Scope string_scope.

Lemma L_app a b : L (a ++ b)%string = (L a ++ L b)%list.
Proof. induction a; simpl; congruence. Qed.

(** One escaped character is read back as that character. *)
Lemma parse_chars_escape_char c tail acc :
  parse_chars (L (escape_char c) ++ tail) acc = parse_chars tail (c :: acc).
Proof.
  destruct c as [[] [] [] [] [] [] [] []]; reflexivity.
Qed.

Lemma parse_chars_escape s : forall tail acc,
  parse_chars (L (escape s) ++ "034"%char :: tail) acc =
  Some (string_of_list_ascii (rev acc ++ L s), tail).
Proof.
  induction s as [|c s IH]; intros tail acc.
  - simpl. now rewrite List.app_nil_r.
  - cbn [escape]. rewrite L_app, <- List.app_assoc, parse_chars_escape_char, IH.
    simpl. now rewrite <- List.app_assoc.
Qed.

Lemma parse_quote s tail :
  parse_chars (List.tl (L (quote s)) ++ tail) [] = Some (s, tail).
Proof.
  unfold quote. simpl. rewrite L_app, <- List.app_assoc. simpl.
  rewrite parse_chars_escape. simpl. now rewrite string_of_list_ascii_of_string.
Qed.

Lemma L_quote s : L (quote s) = "034"%char :: List.tl (L (quote s)).
Proof. reflexivity. Qed.

(** *** Numbers *)

Lemma number_eqb_eq x y : JsNumber.eqb x y = true -> x = y.
Proof.
  destruct x as [a|a| |a m e], y as [b|b| |b m' e']; simpl; try discriminate.
  - intros H. apply Bool.eqb_prop in H. now subst.
  - intros H. apply Bool.eqb_prop in H. now subst.
  - reflexivity.
  - intros H. apply andb_true_iff in H. destruct H as [H He].
    apply andb_true_iff in H. destruct H as [Hs Hm].
    apply Bool.eqb_prop in Hs. apply Pos.eqb_eq in Hm. apply Z.eqb_eq in He.
    now subst.
Qed.

(** A comma or a line feed is no character of a number. *)
Lemma sep_head rest :
  sep_next rest ->
  exists c r, rest = c :: r /\ is_digit c = false /\
    (code c =? 46)%nat = false /\ (code c =? 101)%nat = false /\
    (code c =? 69)%nat = false /\ (code c =? 45)%nat = false /\
    (code c =? 43)%nat = false.
Proof.
  intros (c & r & -> & [-> | ->]);
    [exists ","%char, r | exists "010"%char, r]; repeat split; reflexivity.
Qed.

(** The lexer of numbers reads the same number when a separator and more
    text follow. *)
Lemma span_digits_sep rest : sep_next rest -> forall s ds r,
  span_digits s = (ds, r) -> span_digits (s ++ rest) = (ds, (r ++ rest)%list).
Proof.
  intros Hs. destruct (sep_head rest Hs) as (c0 & r0 & -> & Hd & _).
  induction s as [|c s IH]; intros ds r H; simpl in *.
  - injection H as <- <-. now rewrite Hd.
  - destruct (is_digit c).
    + destruct (span_digits s) as [ds' r'] eqn:E. injection H as <- <-.
      now rewrite (IH ds' r' eq_refl).
    + now injection H as <- <-.
Qed.

Lemma parse_int_sep rest s ds r :
  sep_next rest -> parse_int s = Some (ds, r) ->
  parse_int (s ++ rest) = Some (ds, (r ++ rest)%list).
Proof.
  intros Hs. unfold parse_int.
  destruct (span_digits s) as [ds' r'] eqn:E.
  rewrite (span_digits_sep rest Hs s ds' r' E).
  destruct ds' as [|c ds']; [discriminate|].
  destruct (code c =? 48)%nat.
  - destruct ds'; [|discriminate]. now intros [= <- <-].
  - now intros [= <- <-].
Qed.

Lemma parse_frac_sep rest s ds r :
  sep_next rest -> parse_frac s = Some (ds, r) ->
  parse_frac (s ++ rest) = Some (ds, (r ++ rest)%list).
Proof.
  intros Hs. unfold parse_frac. destruct s as [|c s].
  - intros [= <- <-]. destruct (sep_head rest Hs) as (c0 & r0 & -> & _ & H & _).
    simpl. now rewrite H.
  - cbn [List.app]. destruct (code c =? 46)%nat.
    + destruct (span_digits s) as [ds' r'] eqn:E.
      rewrite (span_digits_sep rest Hs s ds' r' E).
      destruct ds'; [discriminate|]. now intros [= <- <-].
    + now intros [= <- <-].
Qed.

Lemma parse_exp_sep rest s e r :
  sep_next rest -> parse_exp s = Some (e, r) ->
  parse_exp (s ++ rest) = Some (e, (r ++ rest)%list).
Proof.
  intros Hs. unfold parse_exp.
  destruct (sep_head rest Hs) as (c0 & r0 & Hr & Hd & _ & He & HE & Hm & Hp).
  destruct s as [|c s].
  - intros [= <- <-]. subst rest. simpl. now rewrite He, HE.
  - cbn [List.app]. destruct ((code c =? 101)%nat || (code c =? 69)%nat).
    + destruct s as [|d s].
      * discriminate.
      * cbn [List.app].
        destruct (code d =? 45)%nat.
        { destruct (span_digits s) as [ds' r'] eqn:E.
          rewrite (span_digits_sep rest Hs s ds' r' E).
          destruct ds'; [discriminate|]. now intros [= <- <-]. }
        destruct (code d =? 43)%nat.
        { destruct (span_digits s) as [ds' r'] eqn:E.
          rewrite (span_digits_sep rest Hs s ds' r' E).
          destruct ds'; [discriminate|]. now intros [= <- <-]. }
        destruct (span_digits (d :: s)) as [ds' r'] eqn:E.
        change (d :: s ++ rest)%list with ((d :: s) ++ rest)%list.
        rewrite (span_digits_sep rest Hs (d :: s) ds' r' E).
        destruct ds'; [discriminate|]. now intros [= <- <-].
    + now intros [= <- <-].
Qed.

Lemma parse_number_sep rest s x r :
  sep_next rest -> parse_number s = Some (x, r) ->
  parse_number (s ++ rest) = Some (x, (r ++ rest)%list).
Proof.
  intros Hs. unfold parse_number.
  assert (Hgo : forall neg s0,
    match parse_int s0 with
    | Some (int, s1) =>
        match parse_frac s1 with
        | Some (frac, s2) =>
            match parse_exp s2 with
            | Some (e, s3) =>
                Some (JsNumber.of_decimal neg (digits_value (int ++ frac))
                        (e - Z.of_nat (List.length frac)), s3)
            | None => None
            end
        | None => None
        end
    | None => None
    end = Some (x, r) ->
    match parse_int (s0 ++ rest) with
    | Some (int, s1) =>
        match parse_frac s1 with
        | Some (frac, s2) =>
            match parse_exp s2 with
            | Some (e, s3) =>
                Some (JsNumber.of_decimal neg (digits_value (int ++ frac))
                        (e - Z.of_nat (List.length frac)), s3)
            | None => None
            end
        | None => None
        end
    | None => None
    end = Some (x, (r ++ rest)%list)).
  { intros neg s0.
    destruct (parse_int s0) as [[int s1]|] eqn:E1; [|discriminate].
    rewrite (parse_int_sep rest s0 int s1 Hs E1).
    destruct (parse_frac s1) as [[frac s2]|] eqn:E2; [|discriminate].
    rewrite (parse_frac_sep rest s1 frac s2 Hs E2).
    destruct (parse_exp s2) as [[e s3]|] eqn:E3; [|discriminate].
    rewrite (parse_exp_sep rest s2 e s3 Hs E3).
    now intros [= <- <-]. }
  destruct s as [|c s].
  - discriminate.
  - cbn [List.app]. destruct (code c =? 45)%nat; apply Hgo.
Qed.

Lemma parse_number_starts s x r :
  parse_number s = Some (x, r) -> starts_number s.
Proof.
  unfold parse_number. destruct s as [|c s]; [discriminate|].
  destruct (code c =? 45)%nat eqn:Hc.
  - intros _. right. apply Nat.eqb_eq in Hc. unfold code in Hc.
    rewrite <- (ascii_nat_embedding c), Hc. reflexivity.
  - unfold parse_int. cbn [span_digits].
    destruct (is_digit c) eqn:Hd; [intros _; now left | discriminate].
Qed.

Lemma parse_value_number fuel s :
  starts_number s ->
  parse_value (S fuel) s =
  match parse_number s with
  | Some (x, r) => Some (Num x, r)
  | None => None
  end.
Proof.
  destruct s as [|c r]; [intros []|].
  intros [Hd | ->]; [|reflexivity].
  unfold is_digit, code in Hd.
  destruct c as [[] [] [] [] [] [] [] []]; try discriminate Hd; reflexivity.
Qed.

(** A Number that is read back from its own numeral is read back from it
    in a table. *)
Lemma parse_number_ok fuel x rest :
  reads_back (CNum x) = true -> sep_next rest ->
  parse_value (S fuel) (L (number_to_string x) ++ rest) = Some (Num x, rest).
Proof.
  unfold reads_back. intros H Hs.
  destruct (parse_number (L (number_to_string x))) as [[y [|c r]]|] eqn:E;
    try discriminate.
  apply number_eqb_eq in H. subst y.
  rewrite parse_value_number.
  - now rewrite (parse_number_sep rest _ x [] Hs E).
  - pose proof (parse_number_starts _ _ _ E) as St.
    destruct (L (number_to_string x)); [destruct St | exact St].
Qed.

Lemma serialize_cell indent c :
  L (serialize indent (Cell_to_json c)) = cell_text c.
Proof. destruct c as [s|n|[]|]; reflexivity. Qed.

Lemma parse_cell fuel c rest :
  reads_back c = true -> sep_next rest ->
  parse_value (S fuel) (cell_text c ++ rest) = Some (Cell_to_json c, rest).
Proof.
  intros Hb Hs. destruct c as [s|x|[]|]; unfold cell_text; cbn [Cell_to_json serialize].
  - rewrite L_quote. cbn [List.app parse_value skip_ws is_ws].
    change (is_ws "034") with false. cbv iota.
    change (code "034" =? 34)%nat with true. cbv iota.
    now rewrite parse_quote.
  - now apply parse_number_ok.
  - reflexivity.
  - reflexivity.
  - reflexivity.
Qed.

Lemma L_join {A} (text : A -> string) sep x xs :
  L (join sep (map text (x :: xs))) =
  (L (text x) ++ flat_map (fun y => L sep ++ L (text y)) xs)%list.
Proof.
  revert x. induction xs as [|y ys IH]; intros x.
  - simpl. now rewrite List.app_nil_r.
  - change (join sep (map text (x :: y :: ys)))
      with (text x ++ sep ++ join sep (map text (y :: ys)))%string.
    rewrite !L_app, IH. simpl. now rewrite <- !List.app_assoc.
Qed.

Lemma flat_map_ext' {A B} (f g : A -> list B) l :
  (forall x, f x = g x) -> flat_map f l = flat_map g l.
Proof. intros H. induction l; simpl; congruence. Qed.

Lemma L_serialize_row row :
  L (serialize "  " (JsObject_to_json row)) = row_text row.
Proof.
  destruct row as [|m ms]; [reflexivity|].
  unfold JsObject_to_json.
  change (serialize "  " (Obj (map (fun kv => (fst kv, Cell_to_json (snd kv))) (m :: ms))))
    with ("{" ++ LF ++ "    "
            ++ join ("," ++ LF ++ "    ")
                 (map (fun kv : string * value =>
                         quote (fst kv) ++ ": " ++ serialize "    " (snd kv))
                      (map (fun kv => (fst kv, Cell_to_json (snd kv))) (m :: ms)))
            ++ LF ++ "  " ++ "}")%string.
  rewrite map_map. cbn [fst snd].
  rewrite !L_app, L_join. unfold row_text.
  rewrite !L_app, <- !List.app_assoc. do 3 f_equal.
  unfold member_text. rewrite <- !List.app_assoc, serialize_cell. do 3 f_equal.
  f_equal.
  apply flat_map_ext'. intros kv. unfold next_member, member_text.
  now rewrite !L_app, serialize_cell, <- !List.app_assoc.
Qed.

Lemma L_stringify_rows rows :
  L (stringify (rows_to_json rows)) = rows_text rows.
Proof.
  destruct rows as [|r rs]; [reflexivity|].
  unfold stringify, rows_to_json.
  change (serialize EmptyString (Arr (map JsObject_to_json (r :: rs))))
    with ("[" ++ LF ++ "  "
            ++ join ("," ++ LF ++ "  ")
                 (map (serialize "  ") (map JsObject_to_json (r :: rs)))
            ++ LF ++ "]")%string.
  rewrite map_map. rewrite !L_app, L_join. unfold rows_text.
  rewrite !L_app, <- !List.app_assoc. do 3 f_equal.
  rewrite L_serialize_row. f_equal. f_equal.
  apply flat_map_ext'. intros row. unfold next_row.
  now rewrite !L_app, L_serialize_row, <- !List.app_assoc.
Qed.

(** *** Reading the text back *)

Lemma sep_next_member kv tail : sep_next (next_member kv ++ tail).
Proof. exists ","%char. eexists. split; [reflexivity | now left]. Qed.

Lemma sep_next_close tail : sep_next (L (LF ++ "  }") ++ tail).
Proof. exists "010"%char. eexists. split; [reflexivity | now right]. Qed.

Lemma parse_member_ok fuel kv rest :
  reads_back (snd kv) = true -> sep_next rest ->
  parse_member (parse_value (S fuel)) (L (LF ++ "    ") ++ member_text kv ++ rest) =
  Some ((fst kv, Cell_to_json (snd kv)), rest).
Proof.
  intros Hb Hs. unfold parse_member, member_text.
  rewrite L_quote, <- !List.app_assoc.
  change (skip_ws (L (LF ++ "    ") ++
                   ("034"%char :: List.tl (L (quote (fst kv)))) ++
                   L ": " ++ cell_text (snd kv) ++ rest))
    with ("034"%char :: List.tl (L (quote (fst kv)))
                     ++ L ": " ++ cell_text (snd kv) ++ rest).
  change (code "034" =? 34)%nat with true. cbv iota.
  rewrite parse_quote.
  change (skip_ws (L ": " ++ cell_text (snd kv) ++ rest))
    with (":"%char :: " "%char :: cell_text (snd kv) ++ rest).
  change (code ":" =? 58)%nat with true. cbv iota.
  change (parse_value (S fuel) (" "%char :: cell_text (snd kv) ++ rest))
    with (parse_value (S fuel) (cell_text (snd kv) ++ rest)).
  now rewrite parse_cell.
Qed.

Lemma parse_more_members_ok fuel ms : forall n acc rest,
  row_reads_back ms = true ->
  (List.length ms < n)%nat ->
  parse_more_members (parse_value (S fuel)) n
    (flat_map next_member ms ++ L (LF ++ "  }") ++ rest) acc =
  Some ((rev acc ++ map (fun kv => (fst kv, Cell_to_json (snd kv))) ms)%list, rest).
Proof.
  induction ms as [|m ms IH]; intros n acc rest Hb Hn;
    (destruct n as [|n]; [simpl in Hn; lia|]).
  - simpl. now rewrite List.app_nil_r.
  - apply andb_true_iff in Hb. destruct Hb as [Hb1 Hb2].
    cbn [flat_map]. unfold next_member at 1.
    rewrite <- !List.app_assoc.
    change (parse_more_members (parse_value (S fuel)) (S n)
              (L ("," ++ LF ++ "    ") ++ member_text m ++
               flat_map next_member ms ++ L (LF ++ "  }") ++ rest) acc)
      with (match parse_member (parse_value (S fuel))
                    (L (LF ++ "    ") ++ member_text m ++
                     flat_map next_member ms ++ L (LF ++ "  }") ++ rest) with
            | Some (mm, r') => parse_more_members (parse_value (S fuel)) n r' (mm :: acc)
            | None => None
            end).
    rewrite parse_member_ok.
    + rewrite IH by (assumption || (simpl in Hn; lia)).
      simpl. now rewrite <- List.app_assoc.
    + exact Hb1.
    + destruct ms as [|m' ms']; [apply sep_next_close|].
      cbn [flat_map]. rewrite <- List.app_assoc. apply sep_next_member.
Qed.

Lemma parse_value_object F X d r1 :
  skip_ws X = d :: r1 -> (code d =? 125)%nat = false ->
  parse_value (S F) ("{"%char :: X) =
  match parse_member (parse_value F) X with
  | Some (m, r2) =>
      match parse_more_members (parse_value F) F r2 [m] with
      | Some (ms, r3) => Some (Obj ms, r3)
      | None => None
      end
  | None => None
  end.
Proof.
  intros H1 H2.
  change (parse_value (S F) ("{"%char :: X))
    with (match skip_ws X with
          | d :: r1 =>
              if (code d =? 125)%nat then Some (Obj [], r1)
              else
                match parse_member (parse_value F) X with
                | Some (m, r2) =>
                    match parse_more_members (parse_value F) F r2 [m] with
                    | Some (ms, r3) => Some (Obj ms, r3)
                    | None => None
                    end
                | None => None
                end
          | [] => None
          end).
  now rewrite H1, H2.
Qed.

Lemma parse_value_array F X d r1 :
  skip_ws X = d :: r1 -> (code d =? 93)%nat = false ->
  parse_value (S F) ("["%char :: X) =
  match parse_value F X with
  | Some (v, r2) =>
      match parse_more_items (parse_value F) F r2 [v] with
      | Some (vs, r3) => Some (Arr vs, r3)
      | None => None
      end
  | None => None
  end.
Proof.
  intros H1 H2.
  change (parse_value (S F) ("["%char :: X))
    with (match skip_ws X with
          | d :: r1 =>
              if (code d =? 93)%nat then Some (Arr [], r1)
              else
                match parse_value F X with
                | Some (v, r2) =>
                    match parse_more_items (parse_value F) F r2 [v] with
                    | Some (vs, r3) => Some (Arr vs, r3)
                    | None => None
                    end
                | None => None
                end
          | [] => None
          end).
  now rewrite H1, H2.
Qed.

Lemma parse_row_ok fuel row rest :
  row_reads_back row = true ->
  (List.length row <= S fuel)%nat ->
  parse_value (S (S fuel)) (row_text row ++ rest) = Some (JsObject_to_json row, rest).
Proof.
  intros Hb Hn. destruct row as [|m ms]; [reflexivity|].
  apply andb_true_iff in Hb. destruct Hb as [Hb1 Hb2].
  unfold row_text. rewrite <- !List.app_assoc.
  change (L ("{" ++ LF ++ "    ") ++ member_text m ++ flat_map next_member ms
            ++ L (LF ++ "  }") ++ rest)
    with ("{"%char :: L (LF ++ "    ") ++ member_text m ++ flat_map next_member ms
            ++ L (LF ++ "  }") ++ rest).
  rewrite (parse_value_object (S fuel) _ "034"%char
             (List.tl (L (quote (fst m))) ++ L ": " ++ cell_text (snd m)
                ++ flat_map next_member ms ++ L (LF ++ "  }") ++ rest)).
  - rewrite parse_member_ok.
    + rewrite parse_more_members_ok by (assumption || (simpl in Hn; lia)).
      reflexivity.
    + exact Hb1.
    + destruct ms as [|m' ms']; [apply sep_next_close|].
      cbn [flat_map]. rewrite <- List.app_assoc. apply sep_next_member.
  - unfold member_text. rewrite L_quote, <- !List.app_assoc. reflexivity.
  - reflexivity.
Qed.

Lemma parse_more_items_ok fuel rows : forall n acc rest,
  (List.length rows < n)%nat ->
  (forall row, In row rows ->
     row_reads_back row = true /\ (List.length row <= S fuel)%nat) ->
  parse_more_items (parse_value (S (S fuel))) n
    (flat_map next_row rows ++ L (LF ++ "]") ++ rest) acc =
  Some ((rev acc ++ map JsObject_to_json rows)%list, rest).
Proof.
  induction rows as [|r rs IH]; intros n acc rest Hn Hrows;
    (destruct n as [|n]; [simpl in Hn; lia|]).
  - simpl. now rewrite List.app_nil_r.
  - cbn [flat_map]. unfold next_row at 1.
    rewrite <- !List.app_assoc.
    change (parse_more_items (parse_value (S (S fuel))) (S n)
              (L ("," ++ LF ++ "  ") ++ row_text r ++
               flat_map next_row rs ++ L (LF ++ "]") ++ rest) acc)
      with (match parse_value (S (S fuel))
                    (L (LF ++ "  ") ++ row_text r ++
                     flat_map next_row rs ++ L (LF ++ "]") ++ rest) with
            | Some (v, r') => parse_more_items (parse_value (S (S fuel))) n r' (v :: acc)
            | None => None
            end).
    change (parse_value (S (S fuel))
              (L (LF ++ "  ") ++ row_text r ++
               flat_map next_row rs ++ L (LF ++ "]") ++ rest))
      with (parse_value (S (S fuel))
              (row_text r ++ flat_map next_row rs ++ L (LF ++ "]") ++ rest)).
    rewrite parse_row_ok by (apply Hrows; now left).
    rewrite IH; [ simpl; now rewrite <- List.app_assoc
                | simpl in Hn; lia
                | intros row Hin; apply Hrows; now right ].
Qed.

Lemma parse_rows_ok fuel rows rest :
  (List.length rows <= S (S fuel))%nat ->
  (forall row, In row rows ->
     row_reads_back row = true /\ (List.length row <= S fuel)%nat) ->
  parse_value (S (S (S fuel))) (rows_text rows ++ rest) = Some (rows_to_json rows, rest).
Proof.
  intros Hn Hrows. destruct rows as [|r rs]; [reflexivity|].
  unfold rows_text. rewrite <- !List.app_assoc.
  change (L ("[" ++ LF ++ "  ") ++ row_text r ++ flat_map next_row rs
            ++ L (LF ++ "]") ++ rest)
    with ("["%char :: L (LF ++ "  ") ++ row_text r ++ flat_map next_row rs
            ++ L (LF ++ "]") ++ rest).
  assert (Hhead : exists tail,
            row_text r ++ flat_map next_row rs ++ L (LF ++ "]") ++ rest
            = "{"%char :: tail).
  { destruct r as [|m ms]; eexists; reflexivity. }
  destruct Hhead as (tail & Hhead).
  rewrite (parse_value_array (S (S fuel)) _ "{"%char tail).
  - change (parse_value (S (S fuel))
              (L (LF ++ "  ") ++ row_text r ++
               flat_map next_row rs ++ L (LF ++ "]") ++ rest))
      with (parse_value (S (S fuel))
              (row_text r ++ flat_map next_row rs ++ L (LF ++ "]") ++ rest)).
    rewrite parse_row_ok by (apply Hrows; now left).
    rewrite parse_more_items_ok;
      [ reflexivity
      | simpl in Hn; lia
      | intros row Hin; apply Hrows; now right ].
  - change (skip_ws (L (LF ++ "  ") ++ row_text r ++ flat_map next_row rs
                       ++ L (LF ++ "]") ++ rest))
      with (skip_ws (row_text r ++ flat_map next_row rs ++ L (LF ++ "]") ++ rest)).
    now rewrite Hhead.
  - reflexivity.
Qed.

(** *** Fuel: the text is longer than its table is wide or deep *)

Lemma length_flat_map_ge {A B} (f : A -> list B) l :
  (forall x, 1 <= List.length (f x))%nat ->
  (List.length l <= List.length (flat_map f l))%nat.
Proof.
  intros H. induction l as [|x l IH]; simpl; [lia|].
  rewrite List.length_app. specialize (H x). lia.
Qed.

Lemma length_row_text row : (List.length row + 2 <= List.length (row_text row))%nat.
Proof.
  destruct row as [|m ms]; [simpl; lia|].
  unfold row_text. rewrite !List.length_app.
  pose proof (length_flat_map_ge next_member ms) as H.
  simpl List.length at 1 2. 
  assert (List.length ms <= List.length (flat_map next_member ms))%nat.
  { apply H. intros x. unfold next_member. rewrite List.length_app. simpl. lia. }
  simpl. lia.
Qed.

Lemma length_rows_text rows :
  (List.length rows + 2 <= List.length (rows_text rows))%nat /\
  forall row, In row rows ->
    (List.length (row_text row) + 2 <= List.length (rows_text rows))%nat.
Proof.
  destruct rows as [|r rs]; [simpl; split; [lia | intros ? []]|].
  unfold rows_text. rewrite !List.length_app.
  assert (H1 : (List.length rs <= List.length (flat_map next_row rs))%nat).
  { apply length_flat_map_ge. intros x. unfold next_row.
    rewrite List.length_app. simpl. lia. }
  assert (H2 : forall row, In row rs ->
             (List.length (row_text row) <= List.length (flat_map next_row rs))%nat).
  { induction rs as [|x xs IH]; intros row Hin; [destruct Hin|].
    cbn [flat_map]. rewrite List.length_app. unfold next_row at 1.
    rewrite List.length_app. destruct Hin as [-> | Hin].
    - lia.
    - assert (List.length xs <= List.length (flat_map next_row xs))%nat.
      { apply length_flat_map_ge. intros y. unfold next_row.
        rewrite List.length_app. simpl. lia. }
      specialize (IH ltac:(lia) row Hin). lia. }
  split.
  - simpl. lia.
  - intros row [<- | Hin]; simpl; [lia|]. specialize (H2 row Hin). lia.
Qed.

(** Parsing the text [JSON.stringify(rows, null, 2)] writes gives the table
    back, record by record, key by key, in order, when each of its cells
    is read back. *)
Theorem parse_stringify_rows rows :
  forallb row_reads_back rows = true ->
  parse (stringify (rows_to_json rows)) = Some (rows_to_json rows).
Proof.
  intros Hb. rewrite forallb_forall in Hb.
  unfold parse. rewrite L_stringify_rows.
  destruct (length_rows_text rows) as [H1 H2].
  destruct (List.length (rows_text rows)) as [|[|fuel]] eqn:E; try lia.
  rewrite <- (List.app_nil_r (rows_text rows)) at 1.
  unfold JsObject in *.
  rewrite parse_rows_ok; [reflexivity | unfold JsObject in *; lia |].
  intros row Hin. split; [now apply Hb|]. specialize (H2 row Hin).
  pose proof (length_row_text row). unfold JsObject in *. lia.
Qed.

End JSONFacts.

(** Tactics for the case analyses over events and statuses. *)

Ltac known_status :=
  repeat match goal with
  | H : @eq Status _ _ -> _ |- _ =>
      first [ specialize (H eq_refl) | clear H ]
  | H : ~ @eq Status _ _ -> _ |- _ =>
      first [ specialize (H ltac:(discriminate)) | clear H ]
  end.

Ltac no_readers r H :=
  destruct r;
  [ clear H
  | exfalso; destruct (H ltac:(discriminate)) as [[?|?] _]; discriminate ].

Ltac inv_goal :=
  constructor; simpl in *; intros;
  try discriminate; try congruence; try lia; eauto;
  try (split; [lia | reflexivity]);
  try match goal with
      | Hr : ?r <> [] -> _, H : ?r <> [] |- _ =>
          destruct (Hr H) as [_ ?]; split; auto
      end.

Ltac run_effect :=
  unfold dispatch, useEffect; simpl;
  try rewrite same_file_refl; try rewrite Nat.eqb_refl; simpl.

Lemma progress_step p :
  0 <= p <= 100 /\ p mod 10 = 0 -> (p >=? 100) = false ->
  0 <= p + 10 <= 100 /\ (p + 10) mod 10 = 0.
Proof.
  intros [Hr Hm] Hlt. rewrite Z.geb_leb in Hlt.
  apply Z.leb_gt in Hlt.
  split; Z.div_mod_to_equations; lia.
Qed.

Ltac case_goal :=
  simpl; repeat split; intros;
  repeat match goal with H : _ /\ _ |- _ => destruct H end;
  try discriminate; try congruence; try lia; eauto.

Section MachineFacts.

Variable Worksheet : Type.
Variable XLSX_read : list Byte.byte -> Js.Exc (Workbook Worksheet).
Variable sheet_to_json : option Worksheet -> Js.Exc (list JsObject).

Abbreviation decode' := (decode Worksheet XLSX_read sheet_to_json).
Abbreviation reader_onload' := (reader_onload Worksheet XLSX_read sheet_to_json).
Abbreviation dispatch' := (dispatch Worksheet XLSX_read sheet_to_json).
Abbreviation handle' := (handle Worksheet XLSX_read sheet_to_json).
Abbreviation exec' := (exec Worksheet XLSX_read sheet_to_json).
Abbreviation reachable' := (reachable Worksheet XLSX_read sheet_to_json).

(** The three outcomes of [reader.onload]. *)
Lemma reader_onload_throw now data w msg :
  decode' data = Js.Throw msg ->
  reader_onload' now data w = onload_catch now w.
Proof. intros H. unfold reader_onload. now rewrite H. Qed.

Lemma reader_onload_empty now data w rows :
  decode' data = Js.Return rows -> hasData rows = false ->
  reader_onload' now data w =
  (w |> addLog now emptyFileMsg log_error |> toast emptyFileToast |> setStatus error).
Proof. intros H E. unfold reader_onload. rewrite H. simpl. now rewrite E. Qed.

Lemma reader_onload_data now data w rows :
  decode' data = Js.Return rows -> hasData rows = true ->
  reader_onload' now data w =
  (w |> setSheetHeaders (Object_keys (hd [] rows)) |> setJsonData rows
     |> addLog now parsedOkMsg info).
Proof. intros H E. unfold reader_onload. rewrite H. simpl. now rewrite E. Qed.

Lemma inv_init : Inv initialWorld.
Proof.
  constructor; simpl; try discriminate; try congruence; auto.
  - split; [lia | reflexivity].
Qed.

Lemma inv_step w now ev :
  Inv w -> enabled ev w = true -> Inv (dispatch' now ev w).
Proof.
  intros [Hiu Hin Hr1 Hr Htp Htn Hp] En.
  destruct w as [[stat f p l dr h j] i r t to d]; simpl in *.
  destruct ev; simpl in En.
  - (* FileSelected *)
    destruct stat; try discriminate; no_readers r Hr; known_status; subst;
    (destruct f0 as [sel|]; unfold dispatch, handle, handleFileSelect;
     [ destruct (isAccepted sel) | ]; run_effect; inv_goal).
  - destruct stat; try discriminate; no_readers r Hr; known_status; subst;
    run_effect; inv_goal.
  - destruct stat; try discriminate; no_readers r Hr; known_status; subst;
    run_effect; inv_goal.
  - destruct stat; try discriminate; no_readers r Hr; known_status; subst;
    run_effect; inv_goal.
  - destruct stat; try discriminate; no_readers r Hr; known_status; subst;
    (destruct f0 as [sel|]; unfold dispatch, handle, handleDrop, handleFileSelect;
     [ destruct (isAccepted sel) | ]; run_effect; inv_goal).
  - (* ConfirmClicked *)
    destruct stat; try discriminate. simpl in En.
    destruct j as [|row rows]; [discriminate|].
    destruct r as [|f0 r]; [| destruct (Hr ltac:(discriminate)); discriminate].
    known_status; subst.
    run_effect; inv_goal.
  - (* ResetClicked *)
    destruct stat; try discriminate; no_readers r Hr; known_status; subst;
    run_effect; inv_goal.
  - (* ReaderLoaded *)
    destruct r as [|f0 r]; [discriminate|].
    destruct (Hr ltac:(discriminate)) as [Hs ->].
    assert (r = []) by (destruct r; [reflexivity | simpl in Hr1; lia]); subst r.
    unfold dispatch, handle; simpl readers; cbv iota.
    destruct (decode' (Some (bytes f0))) as [rows|msg] eqn:D.
    + destruct (hasData rows) eqn:E.
      * rewrite (reader_onload_data _ _ _ _ D E).
        destruct Hs; subst stat; known_status; run_effect; inv_goal.
        
      * rewrite (reader_onload_empty _ _ _ _ D E).
        destruct Hs; subst stat; known_status; run_effect; inv_goal.
    + rewrite (reader_onload_throw _ _ _ _ D).
      destruct Hs; subst stat; known_status; run_effect; inv_goal.
  - (* ReaderFailed *)
    destruct r as [|f0 r]; [discriminate|].
    destruct (Hr ltac:(discriminate)) as [Hs ->].
    assert (r = []) by (destruct r; [reflexivity | simpl in Hr1; lia]); subst r.
    unfold dispatch, handle; simpl readers; cbv iota.
    destruct Hs; subst stat; known_status; run_effect; inv_goal.
  - (* IntervalFired *)
    destruct i as [f0|]; [|discriminate].
    destruct stat; try (specialize (Hin ltac:(discriminate)); discriminate).
    known_status. destruct Hiu as (f1 & Hi & Hf). inversion Hi; subst f1 f.
    unfold dispatch, handle, interval_callback; simpl.
    destruct (p >=? 100) eqn:Hp100; simpl.
    + run_effect; inv_goal.
    + run_effect; inv_goal. now apply progress_step.
  - (* DelayElapsed *)
    destruct t as [|d0 t]; [discriminate|].
    destruct stat; try (specialize (Htn ltac:(discriminate)); discriminate).
    known_status. inversion Htp; subst.
    no_readers r Hr.
    unfold dispatch, handle, handleProcess_resume, simulateBackendProcessing; simpl.
    destruct dom_ok; run_effect; inv_goal.
Qed.

Lemma reachable_inv w : reachable' w -> Inv w.
Proof.
  induction 1 as [|w now ev _ IH En]; [apply inv_init | now apply inv_step].
Qed.

(** ** Absent file (C10) *)

(** C10. Submitting an absent file ([null] or [undefined]) is a complete
    no-op: [handleFileSelect] returns the world it was given, and so does
    the whole event (handler, render and effect), so the workflow state,
    the current file, the table, the progress and the log are unchanged. *)
Theorem absent_file_is_noop now w :
  handleFileSelect now None w = w /\
  dispatch' now (FileSelected None) w = w.
Proof.
  split; [reflexivity|].
  unfold dispatch; simpl. now apply useEffect_same.
Qed.

(** ** Confirm without data (C8) *)

(** C8. In the preview state with an empty parse result the confirm control
    is rendered disabled, and invoking [handleProcess] anyway leaves every
    state cell (status, file, table, progress, log) unchanged, starts no
    processing delay and touches no other outstanding callback; it only
    shows a notification. *)
Theorem confirm_without_data_is_noop now w :
  status (st w) = preview ->
  jsonData (st w) = [] ->
  renderFooter (st w) = ConfirmButton true /\
  enabled ConfirmClicked w = false /\
  st (handleProcess now w) = st w /\
  st (dispatch' now ConfirmClicked w) = st w /\
  timeouts (dispatch' now ConfirmClicked w) = timeouts w /\
  interval (dispatch' now ConfirmClicked w) = interval w /\
  readers (dispatch' now ConfirmClicked w) = readers w /\
  downloads (dispatch' now ConfirmClicked w) = downloads w /\
  toasts (dispatch' now ConfirmClicked w) = (toasts w ++ [noDataToast])%list.
Proof.
  intros Hs Hj.
  assert (Hp : handleProcess now w = toast noDataToast w)
    by (unfold handleProcess; now rewrite Hj).
  assert (Hd : dispatch' now ConfirmClicked w = toast noDataToast w).
  { unfold dispatch; simpl. rewrite Hp. now apply useEffect_same. }
  unfold renderFooter, enabled, renderFooter.
  rewrite Hd, Hp, Hs, Hj. simpl. repeat split; reflexivity.
Qed.

(** ** Reset (C6) *)

Lemma reset_status_idle now w :
  status (st (dispatch' now ResetClicked w)) = idle.
Proof.
  destruct w as [[stat f p l dr h j] i r t to d].
  unfold dispatch, useEffect; simpl. destruct stat, f; reflexivity.
Qed.

(** C6 (amended). Reset, from every world, yields the idle state with no
    file, an empty table (headers and rows), progress 0 and an empty log;
    the drag-hover flag keeps the value it had. Reset is idempotent, as a
    handler and as an event. *)
Theorem reset_yields_idle now now' w :
  st (handleReset w) =
    {| status := idle; file := None; progress := 0; logs := [];
       isDragging := isDragging (st w); sheetHeaders := []; jsonData := [] |} /\
  st (dispatch' now ResetClicked w) = st (handleReset w) /\
  handleReset (handleReset w) = handleReset w /\
  dispatch' now' ResetClicked (dispatch' now ResetClicked w) =
    dispatch' now ResetClicked w.
Proof.
  destruct w as [[stat f p l dr h j] i r t to d].
  unfold dispatch, useEffect; simpl.
  destruct stat, f; simpl; repeat split; reflexivity.
Qed.

(** ** Validation (C2) *)

Lemma not_accepted_iff f :
  isAccepted f = false <->
  (forall ty, In ty ACCEPTED_FILE_TYPES -> Js.startsWith (file_type f) ty = false) /\
  Js.endsWith (name f) ".xlsx" = false /\
  Js.endsWith (name f) ".xls" = false /\
  Js.endsWith (name f) ".csv" = false.
Proof.
  unfold isAccepted, Js.some.
  rewrite !orb_false_iff. split.
  - intros [[[Hty Hx] Hl] Hc]. repeat split; auto.
    intros ty Hin.
    destruct (Js.startsWith (file_type f) ty) eqn:E; [|reflexivity].
    assert (existsb (fun ty => Js.startsWith (file_type f) ty) ACCEPTED_FILE_TYPES = true)
      by (apply existsb_exists; eauto).
    congruence.
  - intros (Hty & Hx & Hl & Hc). repeat split; auto.
    destruct (existsb _ ACCEPTED_FILE_TYPES) eqn:E; [|reflexivity].
    apply existsb_exists in E. destruct E as (ty & Hin & Hs).
    rewrite (Hty ty Hin) in Hs. discriminate.
Qed.

(** C2 (amended). A submitted file whose name ends in none of [.xlsx],
    [.xls], [.csv] and whose declared media type begins with no entry of the
    allow-list is rejected: the handler returns (it cannot throw), logs one
    error entry naming the file, shows the invalid-format notification and
    sets the status to error; no FileReader is started, so the parser never
    sees the file's bytes, and the file, table and progress cells are left
    as they were. *)
Theorem invalid_format_rejected now w f :
  (forall ty, In ty ACCEPTED_FILE_TYPES -> Js.startsWith (file_type f) ty = false) ->
  Js.endsWith (name f) ".xlsx" = false ->
  Js.endsWith (name f) ".xls" = false ->
  Js.endsWith (name f) ".csv" = false ->
  status (st (handleFileSelect now (Some f) w)) = error /\
  logs (st (handleFileSelect now (Some f) w)) =
    {| timestamp := now; message := invalidFormatMsg f; type := log_error |}
      :: logs (st w) /\
  toasts (handleFileSelect now (Some f) w) = (toasts w ++ [invalidFormatToast])%list /\
  readers (handleFileSelect now (Some f) w) = readers w /\
  file (st (handleFileSelect now (Some f) w)) = file (st w) /\
  progress (st (handleFileSelect now (Some f) w)) = progress (st w) /\
  sheetHeaders (st (handleFileSelect now (Some f) w)) = sheetHeaders (st w) /\
  jsonData (st (handleFileSelect now (Some f) w)) = jsonData (st w) /\
  st (dispatch' now (FileSelected (Some f)) w) = st (handleFileSelect now (Some f) w) /\
  readers (dispatch' now (FileSelected (Some f)) w) = readers w.
Proof.
  intros Hty Hx Hl Hc.
  assert (Ha : isAccepted f = false) by (apply not_accepted_iff; auto).
  unfold dispatch, handle, handleFileSelect. rewrite Ha. simpl.
  repeat split; try reflexivity;
    unfold useEffect; simpl;
    destruct (Status_eqb (status (st w)) error && same_file (file (st w)) (file (st w)));
    reflexivity.
Qed.

(** ** Parsing (C1, C3) *)

(** C1. Whenever decoding the buffer throws (the read delivered nothing, the
    sheet reader rejected the bytes, or the conversion to records failed),
    [reader.onload] catches the exception: it returns a world, whose status
    is error, whose log has one new error entry in front and which shows the
    parsing-error notification, with every other cell untouched; the render
    that follows clears the progress interval. For every
    buffer whatsoever the handler ends in one of its three structured
    outcomes, so nothing propagates to its caller. *)
Theorem corrupt_file_reported now data w msg :
  decode' data = Js.Throw msg ->
  status (st (reader_onload' now data w)) = error /\
  logs (st (reader_onload' now data w)) =
    {| timestamp := now; message := corruptFileMsg; type := log_error |}
      :: logs (st w) /\
  toasts (reader_onload' now data w) = (toasts w ++ [corruptFileToast])%list /\
  file (st (reader_onload' now data w)) = file (st w) /\
  progress (st (reader_onload' now data w)) = progress (st w) /\
  sheetHeaders (st (reader_onload' now data w)) = sheetHeaders (st w) /\
  jsonData (st (reader_onload' now data w)) = jsonData (st w) /\
  (forall f rest, readers w = f :: rest -> data = Some (bytes f) ->
     status (st (dispatch' now ReaderLoaded w)) = error /\
     logs (st (dispatch' now ReaderLoaded w)) =
       {| timestamp := now; message := corruptFileMsg; type := log_error |}
         :: logs (st w) /\
     interval (dispatch' now ReaderLoaded w)
       = (if Status_eqb (status (st w)) error then interval w else None)) /\
  (forall data' w',
     (exists rows, reader_onload' now data' w' =
        (w' |> setSheetHeaders (Object_keys (hd [] rows)) |> setJsonData rows
            |> addLog now parsedOkMsg info)) \/
     reader_onload' now data' w' =
        (w' |> addLog now emptyFileMsg log_error |> toast emptyFileToast
            |> setStatus error) \/
     reader_onload' now data' w' = onload_catch now w').
Proof.
  intros D. rewrite (reader_onload_throw _ _ _ _ D).
  do 7 (split; [reflexivity|]). split.
  - intros f rest Hr ->. unfold dispatch, handle. rewrite Hr.
    rewrite (reader_onload_throw _ _ _ _ D). unfold useEffect; simpl.
    destruct (status (st w)); simpl; try rewrite same_file_refl;
      repeat split; reflexivity.
  - intros data' w'.
    destruct (decode' data') as [rows|m] eqn:D'.
    + destruct (hasData rows) eqn:E.
      * left. exists rows. now apply (reader_onload_data _ _ _ _ D').
      * right; left. now apply (reader_onload_empty _ _ _ _ D').
    + right; right. eapply reader_onload_throw; eauto.
Qed.

(** One firing of the interval while uploading. *)
Lemma tick_below_100 now w f :
  status (st w) = uploading -> interval w = Some f ->
  (progress (st w) >=? 100) = false ->
  dispatch' now IntervalFired w = setProgress (progress (st w) + 10) w.
Proof.
  intros Hs Hi Hp. unfold dispatch, handle, interval_callback.
  rewrite Hi, Hp. apply useEffect_same; reflexivity.
Qed.

Lemma tick_at_100 now w f :
  status (st w) = uploading -> interval w = Some f ->
  (progress (st w) >=? 100) = true ->
  dispatch' now IntervalFired w =
  (w |> clearInterval |> setStatus preview
     |> addLog now (Js.dquote ++ name f ++ Js.dquote
                      ++ " subido con éxito. Listo para previsualizar.") info
     |> setProgress 100).
Proof.
  intros Hs Hi Hp. unfold dispatch, handle, interval_callback.
  rewrite Hi, Hp. unfold useEffect. rewrite Hs. reflexivity.
Qed.

(** While a read is outstanding, up to [k + 1] firings of the interval from
    progress [100 - 10 k] keep the read outstanding and log no error. *)
Lemma ticks_keep_reader f ticks : forall (k : nat) w,
  status (st w) = uploading -> interval w = Some f ->
  progress (st w) = 100 - 10 * Z.of_nat k ->
  readers w = [f] -> errorCount (logs (st w)) = 0%nat ->
  (List.length ticks <= k + 1)%nat ->
  exists w',
    exec' (map (fun t => (t, IntervalFired)) ticks) w = Some w' /\
    readers w' = [f] /\ errorCount (logs (st w')) = 0%nat /\
    (status (st w') = uploading \/ status (st w') = preview).
Proof.
  induction ticks as [|t ticks IH]; intros k w Hs Hi Hp Hr He Hl.
  - exists w. simpl. auto.
  - simpl. rewrite Hi.
    destruct k as [|k].
    + (* progress is 100: this firing moves to preview, and it is the last *)
      assert (ticks = []) by (destruct ticks; [reflexivity | simpl in Hl; lia]).
      subst ticks. simpl.
      rewrite (tick_at_100 t w f Hs Hi) by (rewrite Hp; reflexivity).
      eexists; split; [reflexivity|]. simpl. auto.
    + assert (Hlt : (progress (st w) >=? 100) = false).
      { rewrite Hp, Z.geb_leb. apply Z.leb_gt. lia. }
      rewrite (tick_below_100 t w f Hs Hi Hlt).
      apply (IH k); auto.
      * cbn [setProgress with_st st progress]. lia.
      * simpl in Hl. lia.
Qed.

(** C3. A buffer that decodes to zero data rows (no record at all, or a
    first record with no column) makes [reader.onload] report the empty
    file: one error entry in front of the log, the empty-file notification,
    status error. In particular a 0-byte file named [empty.xlsx] passes
    validation by its extension and, once its read completes (after any
    number of firings of the progress interval), leaves the status at error
    with exactly one error entry in the log. *)
Theorem empty_file_reported :
  (forall now data w rows,
     decode' data = Js.Return rows ->
     rows = [] \/ Object_keys (hd [] rows) = [] ->
     status (st (reader_onload' now data w)) = error /\
     logs (st (reader_onload' now data w)) =
       {| timestamp := now; message := emptyFileMsg; type := log_error |}
         :: logs (st w) /\
     toasts (reader_onload' now data w) = (toasts w ++ [emptyFileToast])%list) /\
  (forall fid ty t0 ticks t1 rows,
     decode' (Some []) = Js.Return rows ->
     rows = [] \/ Object_keys (hd [] rows) = [] ->
     (List.length ticks <= 11)%nat ->
     let f := {| file_id := fid; name := "empty.xlsx"; file_type := ty; bytes := [] |} in
     isAccepted f = true /\
     exists w',
       exec' ((t0, FileSelected (Some f))
                :: map (fun t => (t, IntervalFired)) ticks ++ [(t1, ReaderLoaded)])
             initialWorld = Some w' /\
       status (st w') = error /\
       errorCount (logs (st w')) = 1%nat).
Proof.
  split.
  - intros now data w rows D Z. apply hasData_false in Z.
    rewrite (reader_onload_empty _ _ _ _ D Z). repeat split; reflexivity.
  - intros fid ty t0 ticks t1 rows D Z Hl f. apply hasData_false in Z.
    assert (Ha : isAccepted f = true)
      by (apply accepted_by_extension; left; reflexivity).
    split; [exact Ha|].
    cbn [exec enabled dropZoneRendered initialWorld st status initialState].
    cbv iota. rewrite exec_app.
    set (w0 := dispatch' t0 (FileSelected (Some f)) initialWorld).
    assert (Hw0 : status (st w0) = uploading /\ interval w0 = Some f /\
                  progress (st w0) = 0 /\ readers w0 = [f] /\
                  errorCount (logs (st w0)) = 0%nat).
    { unfold w0, dispatch, handle, handleFileSelect. rewrite Ha.
      simpl. repeat split; reflexivity. }
    destruct Hw0 as (Hs & Hi & Hp & Hr & He).
    destruct (ticks_keep_reader f ticks 10 w0 Hs Hi Hp Hr He)
      as (w1 & Hx & Hr1 & He1 & Hs1); [simpl; lia|].
    rewrite Hx. simpl. rewrite Hr1.
    eexists; split; [reflexivity|].
    unfold dispatch, handle. rewrite Hr1. simpl bytes.
    rewrite (reader_onload_empty _ _ _ _ D Z).
    unfold useEffect; simpl.
    destruct Hs1 as [Hs1 | Hs1]; rewrite Hs1; simpl;
      (split; [reflexivity|]); unfold errorCount in *; simpl; now rewrite He1.
Qed.

(** ** Upload progress (C5) *)

Lemma progress_multiple p :
  0 <= p <= 100 /\ p mod 10 = 0 ->
  exists k, (k <= 10)%nat /\ p = 10 * Z.of_nat k.
Proof.
  intros [Hr Hm]. exists (Z.to_nat (p / 10)). split.
  - apply Nat2Z.inj_le. rewrite Z2Nat.id by (apply Z.div_pos; lia).
    simpl. Z.div_mod_to_equations. lia.
  - rewrite Z2Nat.id by (apply Z.div_pos; lia).
    Z.div_mod_to_equations. lia.
Qed.

(** C5. Upload starts with progress 0. While the status is uploading the
    interval is outstanding, progress is one of 0, 10, ..., 100, no event
    decreases it or takes it above 100, a firing of the interval that finds
    it below 100 adds exactly 10 and stays in uploading, and the status
    becomes preview exactly by the firing that finds progress at 100. *)
Theorem upload_progress_steps w now ev :
  reachable' w -> enabled ev w = true ->
  (status (st w) <> uploading ->
   status (st (dispatch' now ev w)) = uploading ->
   progress (st (dispatch' now ev w)) = 0) /\
  (status (st w) = uploading ->
   enabled IntervalFired w = true /\
   (exists k, (k <= 10)%nat /\ progress (st w) = 10 * Z.of_nat k) /\
   progress (st w) <= progress (st (dispatch' now ev w)) <= 100 /\
   (ev = IntervalFired -> progress (st w) < 100 ->
    status (st (dispatch' now ev w)) = uploading /\
    progress (st (dispatch' now ev w)) = progress (st w) + 10) /\
   (status (st (dispatch' now ev w)) = preview <->
    ev = IntervalFired /\ progress (st w) = 100)).
Proof.
  intros R En. apply reachable_inv in R.
  destruct R as [Hiu Hin Hr1 Hr Htp Htn Hp].
  destruct w as [[stat f p l dr h j] i r t to d]; simpl in *.
  pose proof (progress_multiple _ Hp) as Hk.
  destruct ev; simpl in En.
  - destruct stat; try discriminate; known_status;
    (destruct f0 as [sel|]; unfold dispatch, handle, handleFileSelect;
     [ destruct (isAccepted sel) | ]; run_effect; case_goal).
  - destruct stat; try discriminate; run_effect; case_goal.
  - destruct stat; try discriminate; run_effect; case_goal.
  - destruct stat; try discriminate; run_effect; case_goal.
  - destruct stat; try discriminate; known_status;
    (destruct f0 as [sel|]; unfold dispatch, handle, handleDrop, handleFileSelect;
     [ destruct (isAccepted sel) | ]; run_effect; case_goal).
  - destruct stat; try discriminate. simpl in En.
    destruct j; [discriminate|]. run_effect; case_goal.
  - destruct stat; try discriminate; run_effect; case_goal.
  - (* ReaderLoaded *)
    destruct r as [|f0 r]; [discriminate|].
    destruct (Hr ltac:(discriminate)) as [Hs ->].
    unfold dispatch, handle; simpl readers; cbv iota.
    destruct (decode' (Some (bytes f0))) as [rows|msg] eqn:D.
    + destruct (hasData rows) eqn:E.
      * rewrite (reader_onload_data _ _ _ _ D E).
        destruct Hs; subst stat; known_status;
          try destruct Hiu as (f1 & -> & ->); run_effect; case_goal.
      * rewrite (reader_onload_empty _ _ _ _ D E).
        destruct Hs; subst stat; known_status;
          try destruct Hiu as (f1 & -> & ->); run_effect; case_goal.
    + rewrite (reader_onload_throw _ _ _ _ D).
      destruct Hs; subst stat; known_status;
        try destruct Hiu as (f1 & -> & ->); run_effect; case_goal.
  - (* ReaderFailed *)
    destruct r as [|f0 r]; [discriminate|].
    destruct (Hr ltac:(discriminate)) as [Hs ->].
    unfold dispatch, handle; simpl readers; cbv iota.
    destruct Hs; subst stat; known_status;
      try destruct Hiu as (f1 & -> & ->); run_effect; case_goal.
  - (* IntervalFired *)
    destruct i as [f0|]; [|discriminate].
    destruct stat; try (specialize (Hin ltac:(discriminate)); discriminate).
    known_status. destruct Hiu as (f1 & Hi & Hf). inversion Hi; subst f1 f.
    unfold dispatch, handle, interval_callback; simpl.
    destruct (p >=? 100) eqn:Hp100.
    + rewrite Z.geb_leb in Hp100. apply Z.leb_le in Hp100.
      run_effect; case_goal.
    + rewrite Z.geb_leb in Hp100. apply Z.leb_gt in Hp100.
      destruct Hk as (k & Hk10 & Hk).
      run_effect; case_goal.
  - (* DelayElapsed *)
    destruct t as [|d0 t]; [discriminate|].
    destruct stat; try (specialize (Htn ltac:(discriminate)); discriminate).
    unfold dispatch, handle, handleProcess_resume, simulateBackendProcessing; simpl.
    destruct dom_ok; run_effect; case_goal.
Qed.

(** ** Timers (C4) *)

(** [handleReset] itself touches no outstanding callback: it has no handle
    on the interval (owned by the effect), on the readers or on the delay.
    That none is outstanding after a reset is owed to where the reset
    buttons are rendered (completed and error only). *)
Lemma handleReset_keeps_callbacks w :
  interval (handleReset w) = interval w /\
  readers (handleReset w) = readers w /\
  timeouts (handleReset w) = timeouts w.
Proof. repeat split; reflexivity. Qed.

(** C4. Each timer is outstanding only in the state that owns it. After
    any event that leaves uploading the progress interval is cleared. The
    processing state offers no control, so it is left only by the delay
    itself elapsing, after which none is outstanding. A reset (offered in
    completed and error only) leaves no interval, no delay and no read
    outstanding, so after it only user events can occur: no callback is
    left to write the state. *)
Theorem timers_owned_by_state w now ev :
  reachable' w -> enabled ev w = true ->
  (status (st w) = uploading -> status (st (dispatch' now ev w)) <> uploading ->
   interval (dispatch' now ev w) = None) /\
  (status (st w) = processing ->
   (exists dom_ok, ev = DelayElapsed dom_ok) /\
   status (st (dispatch' now ev w)) <> processing /\
   timeouts (dispatch' now ev w) = []) /\
  (interval (dispatch' now ev w) <> None ->
   status (st (dispatch' now ev w)) = uploading) /\
  (timeouts (dispatch' now ev w) <> [] ->
   status (st (dispatch' now ev w)) = processing) /\
  (ev = ResetClicked ->
   status (st (dispatch' now ev w)) = idle /\
   interval (dispatch' now ev w) = None /\
   timeouts (dispatch' now ev w) = [] /\
   readers (dispatch' now ev w) = [] /\
   forall ev', enabled ev' (dispatch' now ev w) = true -> is_callback ev' = false).
Proof.
  intros R En.
  pose proof (reachable_inv _ (reach_step _ _ _ w now ev R En)) as I'.
  apply reachable_inv in R.
  split; [|split; [|split; [|split]]].
  - intros _ Hn. now apply (inv_interval_none _ I').
  - intros Hs.
    pose proof (inv_timeouts_processing _ R Hs) as Ht.
    pose proof (inv_interval_none _ R ltac:(congruence)) as Hi.
    assert (Hrd : readers w = []).
    { destruct (readers w) eqn:E; [reflexivity|].
      destruct (inv_readers _ R) as [[?|?] _]; congruence. }
    destruct w as [[stat f p l dr h j] i r t to d]; simpl in *; subst.
    destruct ev; simpl in En; try discriminate.
    split; [eauto|].
    unfold dispatch, handle, handleProcess_resume, simulateBackendProcessing; simpl.
    destruct dom_ok; run_effect; case_goal.
  - intros Hi. destruct (Status_eqb_spec (status (st (dispatch' now ev w))) uploading);
      [assumption|]. now apply (inv_interval_none _ I') in n.
  - intros Ht. destruct (Status_eqb_spec (status (st (dispatch' now ev w))) processing);
      [assumption|]. now apply (inv_timeouts_none _ I') in n.
  - intros ->.
    assert (Hs : status (st (dispatch' now ResetClicked w)) = idle).
    { apply reset_status_idle. }
    assert (Hi : interval (dispatch' now ResetClicked w) = None)
      by (apply (inv_interval_none _ I'); congruence).
    assert (Ht : timeouts (dispatch' now ResetClicked w) = [])
      by (apply (inv_timeouts_none _ I'); congruence).
    assert (Hrd : readers (dispatch' now ResetClicked w) = []).
    { destruct (readers (dispatch' now ResetClicked w)) eqn:E; [reflexivity|].
      destruct (inv_readers _ I') as [[?|?] _]; congruence. }
    repeat split; auto.
    intros ev' En'. destruct ev'; simpl in *; try reflexivity;
      rewrite ?Hrd, ?Hi, ?Ht in En'; discriminate.
Qed.

(** ** Leaving the error state (C9) *)

(** C9 (amended). From the error state the machine moves only by an
    explicit reset, to idle, or by the submission of an accepted file, to
    uploading; every other event leaves it in error. The submission starts
    a whole new attempt (the file replaced, the table cleared, progress 0,
    a fresh read), never a retry of the failed step alone. *)
Theorem error_left_by_reset_or_new_file w now ev :
  reachable' w -> status (st w) = error -> enabled ev w = true ->
  status (st (dispatch' now ev w)) = error \/
  (ev = ResetClicked /\ status (st (dispatch' now ev w)) = idle /\
   file (st (dispatch' now ev w)) = None /\
   logs (st (dispatch' now ev w)) = []) \/
  (exists f, (ev = FileSelected (Some f) \/ ev = Dropped (Some f)) /\
     isAccepted f = true /\
     status (st (dispatch' now ev w)) = uploading /\
     file (st (dispatch' now ev w)) = Some f /\
     progress (st (dispatch' now ev w)) = 0 /\
     sheetHeaders (st (dispatch' now ev w)) = [] /\
     jsonData (st (dispatch' now ev w)) = [] /\
     readers (dispatch' now ev w) = [f]).
Proof.
  intros R Hs En. apply reachable_inv in R.
  destruct R as [Hiu Hin Hr1 Hr Htp Htn Hp].
  destruct w as [[stat f p l dr h j] i r t to d]; simpl in *. subst stat.
  no_readers r Hr. known_status. subst i t.
  destruct ev; simpl in En; try discriminate.
  - destruct f0 as [sel|]; unfold dispatch, handle, handleFileSelect.
    + destruct (isAccepted sel) eqn:Ha; run_effect.
      * right; right. exists sel. repeat split; auto.
      * now left.
    + run_effect. now left.
  - run_effect. now left.
  - run_effect. now left.
  - run_effect. now left.
  - destruct f0 as [sel|]; unfold dispatch, handle, handleDrop, handleFileSelect.
    + destruct (isAccepted sel) eqn:Ha; run_effect.
      * right; right. exists sel. repeat split; auto.
      * now left.
    + run_effect. now left.
  - run_effect. right; left. repeat split; reflexivity.
Qed.

(** ** From a CSV file to the downloaded JSON (C7) *)

(** Exactly [k + 1] firings of the interval from progress [100 - 10 k] end
    in preview and write nothing but the progress, the status and the log. *)
Lemma ticks_reach_preview f ticks : forall (k : nat) w,
  status (st w) = uploading -> interval w = Some f ->
  progress (st w) = 100 - 10 * Z.of_nat k ->
  List.length ticks = (k + 1)%nat ->
  exists w',
    exec' (map (fun t => (t, IntervalFired)) ticks) w = Some w' /\
    status (st w') = preview /\ progress (st w') = 100 /\
    interval w' = None /\
    file (st w') = file (st w) /\
    sheetHeaders (st w') = sheetHeaders (st w) /\
    jsonData (st w') = jsonData (st w) /\
    readers w' = readers w /\ timeouts w' = timeouts w /\
    downloads w' = downloads w.
Proof.
  induction ticks as [|t ticks IH]; intros k w Hs Hi Hp Hl.
  - exfalso. simpl in Hl. lia.
  - simpl. rewrite Hi.
    destruct k as [|k].
    + assert (ticks = []) by (destruct ticks; [reflexivity | simpl in Hl; lia]).
      subst ticks. simpl.
      rewrite (tick_at_100 t w f Hs Hi) by (rewrite Hp; reflexivity).
      eexists; split; [reflexivity|]. simpl. repeat split; reflexivity.
    + assert (Hlt : (progress (st w) >=? 100) = false).
      { rewrite Hp, Z.geb_leb. apply Z.leb_gt. lia. }
      rewrite (tick_below_100 t w f Hs Hi Hlt).
      destruct (IH k (setProgress (progress (st w) + 10) w)) as (w' & Hx & Hw');
        [ assumption | assumption
        | cbn [setProgress with_st st progress]; lia
        | simpl in Hl; lia
        | exists w'; split; [exact Hx | exact Hw'] ].
Qed.



(** What the resumed [handleProcess] offers when the browser calls go
    through: one more download, the JSON text of the data it closed over,
    which parses back to that data when its cells are read back. *)
Lemma resume_offers_table now data w :
  downloads (handleProcess_resume now true data w) =
    (downloads w ++ [ {| download := "processed_data.json";
                         content := JSON.stringify (rows_to_json data) |} ])%list /\
  status (st (handleProcess_resume now true data w)) = completed /\
  (forallb JSONText.row_reads_back data = true ->
   JSON.parse (JSON.stringify (rows_to_json data)) = Some (rows_to_json data)).
Proof.
  split; [reflexivity|]. split; [reflexivity|].
  apply JSONFacts.parse_stringify_rows.
Qed.


(** A run of enabled events from a reachable world ends in one. *)
Lemma exec_reachable evs : forall w w',
  reachable' w -> exec' evs w = Some w' -> reachable' w'.
Proof.
  induction evs as [|[now ev] evs IH]; intros w w' R X; simpl in X.
  - now inversion X; subst.
  - destruct (enabled ev w) eqn:En; [|discriminate].
    eapply IH; [|exact X]. now constructor.
Qed.








End MachineFacts.

(** ** Concrete runs *)

Lemma run_reachable evs : SampleReader.reachable (SampleReader.run evs).
Proof.
  unfold SampleReader.run.
  destruct (SampleReader.exec evs initialWorld) as [w|] eqn:X.
  - eapply exec_reachable; [apply reach_init | exact X].
  - apply reach_init.
Qed.

Lemma xlsm_media_type_not_listed :
  ~ In (file_type macros_xlsm) ACCEPTED_FILE_TYPES.
Proof. intros [H | [H | [H | []]]]; discriminate. Qed.

(** C2, as stated, fails: the media type of a macro-enabled workbook is not
    in the allow-list and [macros.xlsm] has none of the three extensions,
    yet the file is accepted (its type begins with the [.xls] entry), the
    status becomes uploading and a read of its bytes is started. *)
Lemma xlsm_accepted_counterexample :
  ~ In (file_type macros_xlsm) ACCEPTED_FILE_TYPES /\
  Js.endsWith (name macros_xlsm) ".xlsx" = false /\
  Js.endsWith (name macros_xlsm) ".xls" = false /\
  Js.endsWith (name macros_xlsm) ".csv" = false /\
  status (st (handleFileSelect "09:00:00" (Some macros_xlsm) initialWorld))
    = uploading /\
  readers (handleFileSelect "09:00:00" (Some macros_xlsm) initialWorld)
    = [macros_xlsm] /\
  enabled (FileSelected (Some macros_xlsm)) initialWorld = true /\
  status (st (SampleReader.dispatch "09:00:00" (FileSelected (Some macros_xlsm))
                initialWorld)) = uploading.
Proof.
  split; [exact xlsm_media_type_not_listed|].
  repeat split; reflexivity.
Qed.

(** An instance of C2 (amended): [notes.txt], declared [text/plain]. *)
Lemma invalid_format_rejected_witness :
  isAccepted notes_txt = false /\
  status (st (handleFileSelect "09:00:00" (Some notes_txt) initialWorld)) = error /\
  errorCount (logs (st (handleFileSelect "09:00:00" (Some notes_txt) initialWorld)))
    = 1%nat /\
  readers (handleFileSelect "09:00:00" (Some notes_txt) initialWorld) = [].
Proof.
  split; [reflexivity|].
  destruct (invalid_format_rejected
              SampleReader.Worksheet SampleReader.XLSX_read SampleReader.sheet_to_json
              "09:00:00" initialWorld notes_txt)
    as (Hs & Hl & _ & Hr & _);
    [ intros ty [H | [H | [H | []]]]; subst ty; reflexivity
    | reflexivity | reflexivity | reflexivity | ].
  split; [exact Hs|]. split; [now rewrite Hl | exact Hr].
Defined.

(** An instance of C1: the sample reader throws on [broken.xlsx]. *)
Lemma corrupt_file_reported_witness :
  SampleReader.decode (Some (bytes broken_xlsx)) = Js.Throw "Unsupported file" /\
  status (st (SampleReader.run
                [("09:00:00", FileSelected (Some broken_xlsx));
                 ("09:00:01", ReaderLoaded)])) = error /\
  status (st (reader_onload SampleReader.Worksheet SampleReader.XLSX_read
                SampleReader.sheet_to_json "09:00:01" (Some (bytes broken_xlsx))
                uploading_world)) = error.
Proof.
  split; [reflexivity|]. split; [reflexivity|].
  exact (proj1 (corrupt_file_reported
                  SampleReader.Worksheet SampleReader.XLSX_read
                  SampleReader.sheet_to_json
                  "09:00:01" (Some (bytes broken_xlsx)) uploading_world
                  "Unsupported file" eq_refl)).
Defined.

(** An instance of C3: the 0-byte [empty.xlsx], read after two firings. *)
Lemma empty_file_reported_witness :
  SampleReader.decode (Some []) = Js.Return [] /\
  isAccepted empty_xlsx = true /\
  exists w',
    SampleReader.exec
      (("09:00:00", FileSelected (Some empty_xlsx))
         :: map (fun t => (t, IntervalFired)) ["09:00:01"; "09:00:02"]
         ++ [("09:00:03", ReaderLoaded)]) initialWorld = Some w' /\
    status (st w') = error /\ errorCount (logs (st w')) = 1%nat.
Proof.
  split; [reflexivity|].
  exact (proj2 (empty_file_reported
                  SampleReader.Worksheet SampleReader.XLSX_read
                  SampleReader.sheet_to_json)
               2%nat EmptyString "09:00:00" ["09:00:01"; "09:00:02"] "09:00:03" []
               eq_refl (or_introl eq_refl) ltac:(simpl; lia)).
Defined.

(** An instance of C4: the delay elapsing in the processing world. *)
Lemma timers_owned_by_state_witness :
  SampleReader.reachable processing_world /\
  enabled (DelayElapsed true) processing_world = true /\
  status (st processing_world) = processing /\
  timeouts processing_world <> [] /\
  timeouts (SampleReader.dispatch "09:00:05" (DelayElapsed true) processing_world) = [].
Proof.
  split; [apply run_reachable|]. split; [reflexivity|]. split; [reflexivity|].
  split; [vm_compute; discriminate|].
  destruct (timers_owned_by_state
              SampleReader.Worksheet SampleReader.XLSX_read SampleReader.sheet_to_json
              processing_world "09:00:05" (DelayElapsed true)
              (run_reachable _) eq_refl) as (_ & H & _).
  exact (proj2 (proj2 (H eq_refl))).
Defined.

(** An instance of C5: the fourth firing, from 30 to 40. *)
Lemma upload_progress_steps_witness :
  SampleReader.reachable uploading_world /\
  status (st uploading_world) = uploading /\
  progress (st uploading_world) = 30 /\
  progress (st (SampleReader.dispatch "09:00:02" IntervalFired uploading_world)) = 40.
Proof.
  split; [apply run_reachable|]. split; [reflexivity|]. split; [reflexivity|].
  destruct (upload_progress_steps
              SampleReader.Worksheet SampleReader.XLSX_read SampleReader.sheet_to_json
              uploading_world "09:00:02" IntervalFired
              (run_reachable _) eq_refl) as (_ & H).
  destruct (H eq_refl) as (_ & _ & _ & Hstep & _).
  exact (proj2 (Hstep eq_refl ltac:(vm_compute; reflexivity))).
Defined.


(** An instance of C8: preview reached before the read has completed. *)
Lemma confirm_without_data_is_noop_witness :
  status (st preview_without_data) = preview /\
  jsonData (st preview_without_data) = [] /\
  renderFooter (st preview_without_data) = ConfirmButton true /\
  st (handleProcess "09:00:03" preview_without_data) = st preview_without_data.
Proof.
  split; [reflexivity|]. split; [reflexivity|].
  destruct (confirm_without_data_is_noop
              SampleReader.Worksheet SampleReader.XLSX_read SampleReader.sheet_to_json
              "09:00:03" preview_without_data eq_refl eq_refl) as (Hf & _ & Hst & _).
  split; [exact Hf | exact Hst].
Defined.

(** C6, as stated, fails: with a drag hovering over the drop zone of the
    error state, the reset offered there ends with the drag-hover flag still
    set, in a state that is not the initial one, while the same reset
    without the hovering drag ends in the initial state. *)
Lemma reset_keeps_drag_flag_counterexample :
  SampleReader.reachable error_dragging /\
  enabled ResetClicked error_dragging = true /\
  isDragging (st (SampleReader.dispatch "09:00:09" ResetClicked error_dragging))
    = true /\
  st (SampleReader.dispatch "09:00:09" ResetClicked error_dragging) <> initialState /\
  st (handleReset error_dragging) <> initialState /\
  SampleReader.reachable error_world /\
  st (SampleReader.dispatch "09:00:09" ResetClicked error_world) = initialState.
Proof.
  split; [apply run_reachable|]. split; [reflexivity|]. split; [reflexivity|].
  split; [vm_compute; discriminate|]. split; [vm_compute; discriminate|].
  split; [apply run_reachable | reflexivity].
Qed.

(** C9, as stated, fails: in the error state left by a rejected file, the
    submission of an accepted file moves the machine to uploading with no
    reset in between, the log of the failed attempt still there. *)
Lemma new_file_leaves_error_counterexample :
  SampleReader.reachable error_world /\
  status (st error_world) = error /\
  enabled (FileSelected (Some csv_ab)) error_world = true /\
  status (st (SampleReader.dispatch "09:00:09" (FileSelected (Some csv_ab))
                error_world)) = uploading /\
  errorCount (logs (st (SampleReader.dispatch "09:00:09"
                          (FileSelected (Some csv_ab)) error_world))) = 1%nat.
Proof.
  split; [apply run_reachable|]. repeat split; reflexivity.
Qed.

(** An instance of C9 (amended): an accepted file dropped in the error state. *)
Lemma error_left_by_reset_or_new_file_witness :
  SampleReader.reachable error_world /\
  status (st error_world) = error /\
  enabled (Dropped (Some csv_ab)) error_world = true /\
  status (st (SampleReader.dispatch "09:00:09" (Dropped (Some csv_ab)) error_world))
    <> idle.
Proof.
  split; [apply run_reachable|]. split; [reflexivity|]. split; [reflexivity|].
  destruct (error_left_by_reset_or_new_file
              SampleReader.Worksheet SampleReader.XLSX_read SampleReader.sheet_to_json
              error_world "09:00:09" (Dropped (Some csv_ab))
              (run_reachable _) eq_refl eq_refl)
    as [H | [(H & _) | (f & _ & _ & H & _)]].
  - unfold SampleReader.dispatch. rewrite H. discriminate.
  - discriminate H.
  - unfold SampleReader.dispatch. rewrite H. discriminate.
Defined.

(** * Further properties

    What the code shows besides: the acceptance test spelled out, the
    invariants tying the cells of the state together, the log, the toasts,
    the status graph, the download, and the workflow run from end to
    end. *)

(** ** Prefixes and suffixes *)

Lemma string_length_append a b :
  String.length (a ++ b) = (String.length a + String.length b)%nat.
Proof. induction a; simpl; congruence. Qed.

Lemma substring_whole s : String.substring 0 (String.length s) s = s.
Proof. induction s; simpl; congruence. Qed.

Lemma substring_skip pre p :
  String.substring (String.length pre) (String.length p) (pre ++ p) = p.
Proof. induction pre; simpl; [apply substring_whole | assumption]. Qed.

Lemma substring_split s : forall n,
  (n <= String.length s)%nat ->
  s = String.substring 0 n s ++ String.substring n (String.length s - n) s.
Proof.
  induction s as [|c s IH]; intros n H.
  - destruct n; simpl in *; [reflexivity | lia].
  - destruct n as [|n].
    + change (String c s = String c (String.substring 0 (String.length s) s)).
      now rewrite substring_whole.
    + simpl in H. simpl. f_equal. apply IH. lia.
Qed.

Lemma startsWith_iff s p :
  Js.startsWith s p = true <-> exists suffix, s = p ++ suffix.
Proof.
  unfold Js.startsWith. revert s.
  induction p as [|a p IH]; intros s.
  - split; [intros _; exists s; reflexivity | intros _; now destruct s].
  - destruct s as [|b s]; simpl.
    + split; [discriminate | intros [x H]; discriminate].
    + destruct (ascii_dec a b) as [->|N].
      * rewrite IH. split; intros [x H]; exists x; [now rewrite H | now injection H].
      * split; [discriminate | intros [x H]; injection H as H1 H2; congruence].
Qed.

Lemma endsWith_iff s p :
  Js.endsWith s p = true <-> exists before, s = before ++ p.
Proof.
  unfold Js.endsWith. rewrite andb_true_iff, Nat.leb_le, String.eqb_eq. split.
  - intros [Hl Hs].
    exists (String.substring 0 (String.length s - String.length p) s).
    rewrite (substring_split s (String.length s - String.length p)) at 1 by lia.
    f_equal. rewrite <- Hs at 3. f_equal. lia.
  - intros [before ->]. rewrite string_length_append. split; [lia|].
    replace (String.length before + String.length p - String.length p)%nat
      with (String.length before) by lia.
    apply substring_skip.
Qed.

Lemma startsWith_refl s : Js.startsWith s s = true.
Proof. unfold Js.startsWith. induction s as [|c s IH]; simpl; [reflexivity|].
  destruct (ascii_dec c c); [assumption | congruence]. Qed.

(** X1. A submitted file is accepted exactly when its media type begins
    with one of the three listed types, or its name ends in [.xlsx], [.xls]
    or [.csv]: the type is matched as a prefix, the extension with its case. *)
Theorem accepted_iff f :
  isAccepted f = true <->
  (exists ty rest, In ty ACCEPTED_FILE_TYPES /\ file_type f = ty ++ rest) \/
  (exists stem, name f = stem ++ ".xlsx") \/
  (exists stem, name f = stem ++ ".xls") \/
  (exists stem, name f = stem ++ ".csv").
Proof.
  unfold isAccepted, Js.some.
  rewrite !orb_true_iff, existsb_exists, !endsWith_iff.
  split.
  - intros [[[(ty & Hin & Hs) | H] | H] | H]; auto.
    apply startsWith_iff in Hs. destruct Hs as [rest Hs]. left. eauto.
  - intros [(ty & rest & Hin & Hs) | [H | [H | H]]]; auto.
    left; left; left. exists ty. split; [assumption|].
    apply startsWith_iff. eauto.
Qed.

(** A type the earlier component lists is matched by the later one. *)
Lemma v1_listed_type_matches f :
  V1.includes V1.ACCEPTED_FILE_TYPES (file_type f) = true ->
  Js.some (fun ty => Js.startsWith (file_type f) ty) ACCEPTED_FILE_TYPES = true.
Proof.
  unfold V1.includes, Js.some. rewrite !existsb_exists.
  intros (ty & I & E). apply String.eqb_eq in E. subst ty.
  exists (file_type f). split; [|apply startsWith_refl].
  destruct I as [<- | [<- | []]]; simpl; auto.
Qed.

(** X2. The later component accepts what the earlier one accepts and
    besides exactly the files whose media type begins with a listed type
    (among them [text/csv]) or whose name ends in [.csv]. *)
Theorem acceptance_widened f :
  isAccepted f =
  V1.isAccepted f
  || Js.some (fun ty => Js.startsWith (file_type f) ty) ACCEPTED_FILE_TYPES
  || Js.endsWith (name f) ".csv".
Proof.
  unfold isAccepted, V1.isAccepted.
  pose proof (v1_listed_type_matches f) as H.
  destruct (V1.includes V1.ACCEPTED_FILE_TYPES (file_type f));
    [rewrite (H eq_refl); reflexivity|].
  clear H.
  destruct (Js.some _ ACCEPTED_FILE_TYPES), (Js.endsWith (name f) ".xlsx"),
    (Js.endsWith (name f) ".xls"), (Js.endsWith (name f) ".csv"); reflexivity.
Qed.

(** ** The invariant *)

Ltac known_coh :=
  repeat match goal with
  | H : _ \/ _ -> _ |- _ => first [ specialize (H ltac:(auto)) | clear H ]
  | H : _ :: _ <> [] -> _ |- _ => specialize (H ltac:(discriminate))
  | H : [] <> [] -> _ |- _ => clear H
  | H : _ :: _ = [] -> _ |- _ => clear H
  | H : @eq (list _) [] [] -> _ |- _ => specialize (H eq_refl)
  | H : exists _, _ |- _ => destruct H
  | H : _ /\ _ |- _ => destruct H
  end.

Ltac coh_goal :=
  known_coh;
  constructor; simpl in *; intros;
  repeat match goal with
         | H : _ /\ _ |- _ => destruct H
         | H : _ \/ _ |- _ => destruct H
         end;
  try discriminate; try congruence; try lia; eauto;
  try (repeat split; congruence);
  try (apply Forall_app; split; [assumption | repeat constructor]);
  try (repeat constructor; discriminate);
  try (subst; simpl in *; discriminate).

Section WorkflowFacts.

Variable Worksheet : Type.
Variable XLSX_read : list Byte.byte -> Js.Exc (Workbook Worksheet).
Variable sheet_to_json : option Worksheet -> Js.Exc (list JsObject).

Abbreviation decode' := (decode Worksheet XLSX_read sheet_to_json).
Abbreviation reader_onload' := (reader_onload Worksheet XLSX_read sheet_to_json).
Abbreviation dispatch' := (dispatch Worksheet XLSX_read sheet_to_json).
Abbreviation exec' := (exec Worksheet XLSX_read sheet_to_json).
Abbreviation reachable' := (reachable Worksheet XLSX_read sheet_to_json).
Abbreviation Coherent' := (Coherent Worksheet XLSX_read sheet_to_json).

Lemma coherent_init : Coherent' initialWorld.
Proof. coh_goal. Qed.

Lemma coherent_step w now ev :
  Inv w -> Coherent' w -> enabled ev w = true -> Coherent' (dispatch' now ev w).
Proof.
  intros [Hiu Hin Hr1 Hr Htp Htn Hp] [Ci Cf Cr Ct Cn Cp Cd Cto Cdl Cts] En.
  destruct w as [[stat f p l dr h j] i r t to d]; simpl in *.
  destruct ev; simpl in En.
  - (* FileSelected *)
    destruct stat; try discriminate; no_readers r Hr; known_status; subst;
    (destruct f0 as [sel|]; unfold dispatch, handle, handleFileSelect;
     [ destruct (isAccepted sel) | ]; run_effect; coh_goal).
  - destruct stat; try discriminate; no_readers r Hr; known_status; subst;
    run_effect; coh_goal.
  - destruct stat; try discriminate; no_readers r Hr; known_status; subst;
    run_effect; coh_goal.
  - destruct stat; try discriminate; no_readers r Hr; known_status; subst;
    run_effect; coh_goal.
  - destruct stat; try discriminate; no_readers r Hr; known_status; subst;
    (destruct f0 as [sel|]; unfold dispatch, handle, handleDrop, handleFileSelect;
     [ destruct (isAccepted sel) | ]; run_effect; coh_goal).
  - (* ConfirmClicked *)
    destruct stat; try discriminate. simpl in En.
    destruct j as [|row rows]; [discriminate|].
    destruct r as [|f0 r]; [| destruct (Hr ltac:(discriminate)); discriminate].
    known_status; subst.
    run_effect; coh_goal.
  - (* ResetClicked *)
    destruct stat; try discriminate; no_readers r Hr; known_status; subst;
    run_effect; coh_goal.
  - (* ReaderLoaded *)
    destruct r as [|f0 r]; [discriminate|].
    destruct (Hr ltac:(discriminate)) as [Hs ->].
    assert (r = []) by (destruct r; [reflexivity | simpl in Hr1; lia]); subst r.
    pose proof (Cr f0 [] eq_refl) as Hf. subst f.
    unfold dispatch, handle; simpl readers; cbv iota.
    destruct (decode' (Some (bytes f0))) as [rows|msg] eqn:D.
    + destruct (hasData rows) eqn:E.
      * rewrite (reader_onload_data _ _ _ _ _ _ _ D E).
        destruct Hs; subst stat; known_status; run_effect; coh_goal.
      * rewrite (reader_onload_empty _ _ _ _ _ _ _ D E).
        destruct Hs; subst stat; known_status; run_effect; coh_goal.
    + rewrite (reader_onload_throw _ _ _ _ _ _ _ D).
      destruct Hs; subst stat; known_status; run_effect; coh_goal.
  - (* ReaderFailed *)
    destruct r as [|f0 r]; [discriminate|].
    destruct (Hr ltac:(discriminate)) as [Hs ->].
    assert (r = []) by (destruct r; [reflexivity | simpl in Hr1; lia]); subst r.
    unfold dispatch, handle; simpl readers; cbv iota.
    destruct Hs; subst stat; known_status; run_effect; coh_goal.
  - (* IntervalFired *)
    destruct i as [f0|]; [|discriminate].
    destruct stat; try (specialize (Hin ltac:(discriminate)); discriminate).
    known_status. destruct Hiu as (f1 & Hi & Hf). inversion Hi; subst f1 f.
    unfold dispatch, handle, interval_callback; simpl.
    destruct (p >=? 100) eqn:Hp100.
    + run_effect; coh_goal.
    + run_effect; coh_goal.
  - (* DelayElapsed *)
    destruct t as [|d0 t]; [discriminate|].
    destruct stat; try (specialize (Htn ltac:(discriminate)); discriminate).
    known_status. inversion Htp; subst.
    no_readers r Hr.
    unfold dispatch, handle, handleProcess_resume, simulateBackendProcessing; simpl.
    destruct dom_ok; run_effect; coh_goal.
    exists j. split; [assumption | reflexivity].
Qed.

Lemma reachable_coherent w : reachable' w -> Coherent' w.
Proof.
  induction 1 as [|w now ev R IH En]; [apply coherent_init|].
  apply coherent_step; auto.
  exact (reachable_inv Worksheet XLSX_read sheet_to_json w R).
Qed.

(** X3. Whenever the status is idle the component is as at its start, the
    drag-hover flag apart: no file, progress 0, an empty log, no table, no
    interval, read or delay outstanding; the drop zone is rendered, the
    footer and the card of the log are not. *)
Theorem idle_is_pristine w :
  reachable' w -> status (st w) = idle ->
  st w = {| status := idle; file := None; progress := 0; logs := [];
            isDragging := isDragging (st w); sheetHeaders := [];
            jsonData := [] |} /\
  interval w = None /\ readers w = [] /\ timeouts w = [] /\
  dropZoneRendered (st w) = true /\
  footerRendered (st w) = false /\
  logCardRendered (st w) = false.
Proof.
  intros R Hs.
  pose proof (reachable_inv Worksheet XLSX_read sheet_to_json w R) as I.
  pose proof (reachable_coherent w R) as C.
  destruct (coh_idle _ _ _ _ C Hs) as (Hf & Hp & Hl & Hh & Hj).
  assert (Hi : interval w = None) by (apply (inv_interval_none _ I); congruence).
  assert (Ht : timeouts w = []) by (apply (inv_timeouts_none _ I); congruence).
  assert (Hr : readers w = []).
  { destruct (readers w) eqn:E; [reflexivity|].
    destruct (inv_readers _ I) as [[?|?] _]; congruence. }
  destruct w as [[stat f p l dr h j] i r t to d]; simpl in *. subst.
  repeat split; reflexivity.
Qed.

(** X4. The table held in the state is always the decoding of the file held
    in the state, and the headers are the keys of its first row: without
    rows there are no headers, and with rows the headers are not empty and
    no read is outstanding. *)
Theorem table_belongs_to_file w :
  reachable' w ->
  (jsonData (st w) = [] -> sheetHeaders (st w) = []) /\
  (jsonData (st w) <> [] ->
   exists f,
     file (st w) = Some f /\
     decode' (Some (bytes f)) = Js.Return (jsonData (st w)) /\
     sheetHeaders (st w) = Object_keys (hd [] (jsonData (st w))) /\
     sheetHeaders (st w) <> [] /\
     readers w = []).
Proof.
  intros R.
  pose proof (reachable_inv Worksheet XLSX_read sheet_to_json w R) as I.
  pose proof (reachable_coherent w R) as C.
  split; [apply (coh_no_table _ _ _ _ C)|].
  intros Hj. destruct (coh_table _ _ _ _ C Hj) as (f & Hf & D & E & Hh).
  exists f. repeat split; auto.
  - rewrite Hh. unfold hasData in E.
    destruct (jsonData (st w)) as [|[|kv o] rest]; simpl in *; discriminate.
  - destruct (readers w) eqn:Er; [reflexivity|].
    destruct (inv_readers _ I) as [_ ?]; congruence.
Qed.

(** X5. The progress is always one of 0, 10, ..., 100; it is 0 in idle and
    100 in preview, processing and completed. *)
Theorem progress_by_status (w : World) :
  reachable' w ->
  (exists k, (k <= 10)%nat /\ progress (st w) = 10 * Z.of_nat k) /\
  (status (st w) = idle -> progress (st w) = 0) /\
  (status (st w) = preview \/ status (st w) = processing \/
   status (st w) = completed -> progress (st w) = 100).
Proof.
  intros R.
  pose proof (reachable_inv Worksheet XLSX_read sheet_to_json w R) as I.
  pose proof (reachable_coherent w R) as C.
  split; [apply progress_multiple, (inv_progress _ I)|].
  split; [intros Hs; now destruct (coh_idle _ _ _ _ C Hs) as (_ & ? & _)|].
  apply (coh_progress _ _ _ _ C).
Qed.

(** X6. At most one read and one delay are outstanding at any time. The
    interval runs exactly while the status is uploading and a delay is
    pending exactly while it is processing; an outstanding read is of the
    file held in the state, which has no table yet, and the interval
    belongs to that file. *)
Theorem single_flight (w : World) :
  reachable' w ->
  (List.length (readers w) <= 1)%nat /\
  (List.length (timeouts w) <= 1)%nat /\
  (interval w <> None <-> status (st w) = uploading) /\
  (timeouts w <> [] <-> status (st w) = processing) /\
  (forall f rest, readers w = f :: rest ->
     rest = [] /\ file (st w) = Some f /\ jsonData (st w) = [] /\
     (status (st w) = uploading \/ status (st w) = preview)) /\
  (forall f, interval w = Some f -> file (st w) = Some f).
Proof.
  intros R.
  pose proof (reachable_inv Worksheet XLSX_read sheet_to_json w R) as I.
  pose proof (reachable_coherent w R) as C.
  split; [apply (inv_readers_one _ I)|].
  split.
  { destruct (Status_eqb_spec (status (st w)) processing) as [Hs|Hs].
    - rewrite (inv_timeouts_processing _ I Hs). simpl; lia.
    - rewrite (inv_timeouts_none _ I Hs). simpl; lia. }
  split.
  { split.
    - intros Hi. destruct (Status_eqb_spec (status (st w)) uploading) as [Hs|Hs]; auto.
      now apply (inv_interval_none _ I) in Hs.
    - intros Hs. destruct (inv_interval_uploading _ I Hs) as (f & -> & _). discriminate. }
  split.
  { split.
    - intros Ht. destruct (Status_eqb_spec (status (st w)) processing) as [Hs|Hs]; auto.
      now apply (inv_timeouts_none _ I) in Hs.
    - intros Hs. rewrite (inv_timeouts_processing _ I Hs). discriminate. }
  split.
  { intros f rest Hr. pose proof (inv_readers_one _ I) as H1.
    rewrite Hr in H1. split; [destruct rest; [reflexivity | simpl in H1; lia]|].
    split; [apply (coh_reader _ _ _ _ C f rest Hr)|].
    destruct (inv_readers _ I) as [Hs Hj]; [rewrite Hr; discriminate|]. auto. }
  intros f Hi.
  destruct (Status_eqb_spec (status (st w)) uploading) as [Hs|Hs].
  - destruct (inv_interval_uploading _ I Hs) as (f' & Hi' & Hf). congruence.
  - apply (inv_interval_none _ I) in Hs. congruence.
Qed.

(** What the effect leaves alone: everything but the interval and the log. *)
Lemma useEffect_frame now s w :
  status (st (useEffect now s w)) = status (st w) /\
  file (st (useEffect now s w)) = file (st w) /\
  progress (st (useEffect now s w)) = progress (st w) /\
  isDragging (st (useEffect now s w)) = isDragging (st w) /\
  sheetHeaders (st (useEffect now s w)) = sheetHeaders (st w) /\
  jsonData (st (useEffect now s w)) = jsonData (st w) /\
  readers (useEffect now s w) = readers w /\
  timeouts (useEffect now s w) = timeouts w /\
  toasts (useEffect now s w) = toasts w /\
  downloads (useEffect now s w) = downloads w.
Proof.
  unfold useEffect.
  destruct (Status_eqb (status s) (status (st w)) && same_file (file s) (file (st w)));
    [repeat split; reflexivity|].
  destruct w as [[stat f p l dr h j] i r t to d]; simpl.
  destruct stat, f; repeat split; reflexivity.
Qed.

Lemma useEffect_logs now s w :
  logs (st (useEffect now s w)) = logs (st w) \/
  (status (st w) = uploading /\
   logs (st (useEffect now s w)) =
     {| timestamp := now; message := "Iniciando la carga del archivo...";
        type := info |} :: logs (st w)).
Proof.
  unfold useEffect.
  destruct (Status_eqb (status s) (status (st w)) && same_file (file s) (file (st w)));
    [now left|].
  destruct w as [[stat f p l dr h j] i r t to d]; simpl.
  destruct stat, f; simpl; auto.
Qed.

Lemma errorCount_cons e l :
  errorCount (e :: l) =
  ((if is_error_entry e then 1 else 0) + errorCount l)%nat.
Proof. unfold errorCount. simpl. now destruct (is_error_entry e). Qed.

(** X7. The drag-hover flag is written by the drag events alone: entering
    sets it, leaving and dropping clear it, and every other event, the reset
    included, leaves it as it was. *)
Theorem drag_flag_owner (now : Timestamp) (ev : Event) (w : World) :
  isDragging (st (dispatch' now ev w)) =
  match ev with
  | DragEnter => true
  | DragLeave | Dropped _ => false
  | _ => isDragging (st w)
  end.
Proof.
  unfold dispatch.
  destruct (useEffect_frame now (st w) (handle Worksheet XLSX_read sheet_to_json now ev w))
    as (_ & _ & _ & -> & _).
  destruct ev; simpl; try reflexivity.
  - destruct f as [sel|]; simpl; [destruct (isAccepted sel)|]; reflexivity.
  - destruct f as [sel|]; simpl; [destruct (isAccepted sel)|]; reflexivity.
  - unfold handleProcess. destruct (_ =? 0)%nat; reflexivity.
  - destruct (readers w) as [|f r]; [reflexivity|].
    unfold reader_onload. destruct (decode' _) as [rows|m]; simpl;
      [destruct (hasData rows)|]; reflexivity.
  - destruct (readers w); reflexivity.
  - destruct (interval w); [|reflexivity].
    unfold interval_callback. destruct (_ >=? 100); reflexivity.
  - destruct (timeouts w) as [|data r]; [reflexivity|]. now destruct dom_ok.
Qed.

(** X8. Every event that takes the component into the error state shows
    exactly one destructive toast and puts an error entry, stamped with the
    time of the event, on top of the log; the number of error entries grows
    by one, by two when it is the processing that failed. The file, the
    table, the progress and the downloads are left as they were. *)
Theorem failure_is_reported now ev w :
  status (st w) <> error ->
  status (st (dispatch' now ev w)) = error ->
  (exists t, toasts (dispatch' now ev w) = (toasts w ++ [t])%list /\
             variant t = "destructive") /\
  (exists e rest, logs (st (dispatch' now ev w)) = e :: rest /\
                  type e = log_error /\ timestamp e = now) /\
  errorCount (logs (st (dispatch' now ev w))) =
    (errorCount (logs (st w))
     + match ev with DelayElapsed _ => 2 | _ => 1 end)%nat /\
  file (st (dispatch' now ev w)) = file (st w) /\
  sheetHeaders (st (dispatch' now ev w)) = sheetHeaders (st w) /\
  jsonData (st (dispatch' now ev w)) = jsonData (st w) /\
  progress (st (dispatch' now ev w)) = progress (st w) /\
  downloads (dispatch' now ev w) = downloads w.
Proof.
  intros Hne He. unfold dispatch in *.
  set (h := handle Worksheet XLSX_read sheet_to_json now ev w) in *.
  destruct (useEffect_frame now (st w) h)
    as (Es & -> & -> & _ & -> & -> & _ & _ & -> & ->).
  rewrite Es in He.
  assert (El : logs (st (useEffect now (st w) h)) = logs (st h)).
  { destruct (useEffect_logs now (st w) h) as [E | [E _]]; [exact E | congruence]. }
  rewrite El. clear El Es.
  destruct w as [[stat f p l dr hd j] i r t to d]; simpl in Hne.
  destruct ev; unfold h in *; clear h; simpl in He |- *.
  - destruct f0 as [sel|]; simpl in *; [|congruence].
    destruct (isAccepted sel); simpl in *; [discriminate|].
    rewrite errorCount_cons. simpl.
    repeat split; eauto; lia.
  - congruence.
  - congruence.
  - congruence.
  - destruct f0 as [sel|]; simpl in *; [|congruence].
    destruct (isAccepted sel); simpl in *; [discriminate|].
    rewrite errorCount_cons. simpl.
    repeat split; eauto; lia.
  - unfold handleProcess in *. simpl in *.
    destruct (Datatypes.length j =? 0)%nat; simpl in *; [congruence | discriminate].
  - discriminate.
  - destruct r as [|f0 r]; simpl in *; [congruence|].
    destruct (decode' (Some (bytes f0))) as [rows|msg] eqn:D.
    + destruct (hasData rows) eqn:E.
      * rewrite (reader_onload_data _ _ _ _ _ _ _ D E) in *. simpl in *. congruence.
      * rewrite (reader_onload_empty _ _ _ _ _ _ _ D E) in *. simpl in *.
        rewrite errorCount_cons. simpl. repeat split; eauto; lia.
    + rewrite (reader_onload_throw _ _ _ _ _ _ _ D) in *. simpl in *.
      rewrite errorCount_cons. simpl. repeat split; eauto; lia.
  - destruct r as [|f0 r]; simpl in *; [congruence|].
    rewrite errorCount_cons. simpl. repeat split; eauto; lia.
  - destruct i as [f0|]; simpl in *; [|congruence].
    unfold interval_callback in *. simpl in *.
    destruct (p >=? 100); simpl in *; [discriminate | congruence].
  - destruct t as [|data t]; simpl in *; [congruence|].
    destruct dom_ok; simpl in *; [discriminate|].
    rewrite !errorCount_cons. simpl. repeat split; eauto; lia.
Qed.

Lemma handle_logs now ev w :
  ev <> ResetClicked ->
  exists new,
    logs (st (handle Worksheet XLSX_read sheet_to_json now ev w))
      = (new ++ logs (st w))%list /\
    Forall (fun e => timestamp e = now) new /\
    (status (st (handle Worksheet XLSX_read sheet_to_json now ev w))
       <> status (st w) -> new <> []).
Proof.
  intros Hev.
  destruct w as [[stat f p l dr hd j] i r t to d].
  destruct ev; simpl; try congruence.
  - destruct f0 as [sel|]; simpl; [destruct (isAccepted sel); simpl|];
      try (eexists [_]; repeat split; [repeat constructor | discriminate]).
    exists []. repeat split; [constructor | congruence].
  - exists []. repeat split; [constructor | congruence].
  - exists []. repeat split; [constructor | congruence].
  - exists []. repeat split; [constructor | congruence].
  - destruct f0 as [sel|]; simpl; [destruct (isAccepted sel); simpl|];
      try (eexists [_]; repeat split; [repeat constructor | discriminate]).
    exists []. repeat split; [constructor | congruence].
  - unfold handleProcess. simpl. destruct (Datatypes.length j =? 0)%nat; simpl.
    + exists []. repeat split; [constructor | congruence].
    + eexists [_]. repeat split; [repeat constructor | discriminate].
  - destruct r as [|f0 r]; simpl.
    + exists []. repeat split; [constructor | congruence].
    + unfold reader_onload.
      destruct (decode' (Some (bytes f0))) as [rows|msg]; simpl;
        [destruct (hasData rows); simpl|];
        eexists [_]; repeat split; try (repeat constructor); discriminate.
  - destruct r as [|f0 r]; simpl.
    + exists []. repeat split; [constructor | congruence].
    + eexists [_]. repeat split; [repeat constructor | discriminate].
  - destruct i as [f0|]; simpl.
    + unfold interval_callback. simpl. destruct (p >=? 100); simpl.
      * eexists [_]. repeat split; [repeat constructor | discriminate].
      * exists []. repeat split; [constructor | congruence].
    + exists []. repeat split; [constructor | congruence].
  - destruct t as [|data t]; simpl.
    + exists []. repeat split; [constructor | congruence].
    + destruct dom_ok; simpl.
      * eexists [_; _; _]. repeat split; [repeat constructor | discriminate].
      * eexists [_; _; _]. repeat split; [repeat constructor | discriminate].
Qed.

(** X9. The log is cleared by the reset and otherwise only grows at its
    front, by entries stamped with the time of the event; an event that
    changes the status writes at least one entry. *)
Theorem log_is_append_only (now : Timestamp) (ev : Event) (w : World) :
  (ev = ResetClicked /\ logs (st (dispatch' now ev w)) = []) \/
  (exists new,
     logs (st (dispatch' now ev w)) = (new ++ logs (st w))%list /\
     Forall (fun e => timestamp e = now) new /\
     (status (st (dispatch' now ev w)) <> status (st w) -> new <> [])).
Proof.
  destruct ev;
    try (right;
         match goal with
         | |- context [dispatch' now ?e w] =>
             destruct (handle_logs now e w ltac:(discriminate)) as (new & Hl & Ht & Hs);
             unfold dispatch;
             destruct (useEffect_frame now (st w)
                         (handle Worksheet XLSX_read sheet_to_json now e w))
               as (-> & _);
             destruct (useEffect_logs now (st w)
                         (handle Worksheet XLSX_read sheet_to_json now e w))
               as [-> | [_ ->]];
             [ exists new; split; [exact Hl | split; [exact Ht | exact Hs]]
             | eexists (_ :: new); rewrite Hl; split;
               [ reflexivity
               | split; [ constructor; [reflexivity | assumption] | discriminate ] ] ]
         end).
  left. split; [reflexivity|].
  unfold dispatch.
  destruct (useEffect_logs now (st w) (handle Worksheet XLSX_read sheet_to_json now ResetClicked w))
    as [-> | [E _]]; [reflexivity | discriminate E].
Qed.

(** X10. The status moves along the edges of [allowed] only: from idle or
    error to uploading or error, from uploading to preview or error, from
    preview to processing or error, from processing to completed or error,
    and back to idle from completed or error. *)
Theorem transition_graph w now ev :
  reachable' w -> enabled ev w = true ->
  allowed (status (st w)) (status (st (dispatch' now ev w))) = true.
Proof.
  intros R En.
  pose proof (reachable_inv Worksheet XLSX_read sheet_to_json w R)
    as [Hiu Hin Hr1 Hr Htp Htn Hp].
  unfold dispatch.
  destruct (useEffect_frame now (st w)
              (handle Worksheet XLSX_read sheet_to_json now ev w)) as (-> & _).
  destruct w as [[stat f p l dr hd j] i r t to d]; simpl in *.
  destruct ev; simpl in En |- *.
  - destruct stat; try discriminate;
      (destruct f0 as [sel|]; simpl; [destruct (isAccepted sel)|]; reflexivity).
  - destruct stat; try discriminate; reflexivity.
  - destruct stat; try discriminate; reflexivity.
  - destruct stat; try discriminate; reflexivity.
  - destruct stat; try discriminate;
      (destruct f0 as [sel|]; simpl; [destruct (isAccepted sel)|]; reflexivity).
  - destruct stat; try discriminate. simpl in En.
    unfold handleProcess. simpl.
    destruct (Datatypes.length j =? 0)%nat; [discriminate | reflexivity].
  - destruct stat; try discriminate; reflexivity.
  - destruct r as [|f0 r]; [discriminate|].
    destruct (Hr ltac:(discriminate)) as [Hs _].
    unfold reader_onload.
    destruct (decode' (Some (bytes f0))) as [rows|msg]; simpl;
      [destruct (hasData rows); simpl|]; destruct Hs; subst stat; reflexivity.
  - destruct r as [|f0 r]; [discriminate|].
    destruct (Hr ltac:(discriminate)) as [Hs _].
    destruct Hs; subst stat; reflexivity.
  - destruct i as [f0|]; [|discriminate].
    destruct stat; try (specialize (Hin ltac:(discriminate)); discriminate).
    unfold interval_callback. simpl. destruct (p >=? 100); reflexivity.
  - destruct t as [|data t]; [discriminate|].
    destruct stat; try (specialize (Htn ltac:(discriminate)); discriminate).
    destruct dom_ok; reflexivity.
Qed.

(** X11. A download is offered by the resumed [handleProcess] alone, when
    the browser calls go through: its text is [JSON.stringify] of the table
    on screen, which stays on screen and is not empty; the status is then
    completed. Every download ever offered is named [processed_data.json]
    and is the text of a table that is not empty. *)
Theorem download_is_displayed_table w now ev :
  reachable' w -> enabled ev w = true ->
  downloads (dispatch' now ev w) =
    (downloads w ++
     match ev with
     | DelayElapsed true =>
         [ {| download := "processed_data.json";
              content := JSON.stringify (rows_to_json (jsonData (st w))) |} ]
     | _ => []
     end)%list /\
  (ev = DelayElapsed true ->
   status (st (dispatch' now ev w)) = completed /\
   jsonData (st (dispatch' now ev w)) = jsonData (st w) /\
   jsonData (st w) <> []) /\
  Forall (fun d =>
            download d = "processed_data.json" /\
            exists rows, rows <> [] /\
              content d = JSON.stringify (rows_to_json rows))
         (downloads (dispatch' now ev w)).
Proof.
  intros R En.
  pose proof (reachable_coherent _ (reach_step _ _ _ w now ev R En)) as C'.
  pose proof (reachable_inv Worksheet XLSX_read sheet_to_json w R) as I.
  pose proof (reachable_coherent w R) as C.
  split; [|split].
  - unfold dispatch.
    destruct (useEffect_frame now (st w)
                (handle Worksheet XLSX_read sheet_to_json now ev w))
      as (_ & _ & _ & _ & _ & _ & _ & _ & _ & ->).
    destruct ev; simpl; try (now rewrite List.app_nil_r).
    + destruct f as [sel|]; simpl; [destruct (isAccepted sel)|];
        now rewrite List.app_nil_r.
    + destruct f as [sel|]; simpl; [destruct (isAccepted sel)|];
        now rewrite List.app_nil_r.
    + unfold handleProcess. destruct (_ =? 0)%nat; now rewrite List.app_nil_r.
    + destruct (readers w) as [|f0 r]; [now rewrite List.app_nil_r|].
      unfold reader_onload.
      destruct (decode' (Some (bytes f0))) as [rows|msg]; simpl;
        [destruct (hasData rows)|]; now rewrite List.app_nil_r.
    + destruct (readers w); now rewrite List.app_nil_r.
    + destruct (interval w); [|now rewrite List.app_nil_r].
      unfold interval_callback. destruct (_ >=? 100); now rewrite List.app_nil_r.
    + simpl in En. destruct (timeouts w) as [|data t] eqn:Et; [discriminate|].
      assert (Hs : status (st w) = processing).
      { destruct (Status_eqb_spec (status (st w)) processing) as [Hs|Hs]; auto.
        apply (inv_timeouts_none _ I) in Hs. congruence. }
      pose proof (inv_timeouts_processing _ I Hs) as Ht.
      rewrite Et in Ht. injection Ht as -> ->.
      destruct dom_ok; simpl; [reflexivity | now rewrite List.app_nil_r].
  - intros ->. simpl in En.
    destruct (timeouts w) as [|data t] eqn:Et; [discriminate|].
    assert (Hs : status (st w) = processing).
    { destruct (Status_eqb_spec (status (st w)) processing) as [Hs|Hs]; auto.
      apply (inv_timeouts_none _ I) in Hs. congruence. }
    unfold dispatch.
    destruct (useEffect_frame now (st w)
                (handle Worksheet XLSX_read sheet_to_json now (DelayElapsed true) w))
      as (-> & _ & _ & _ & _ & -> & _).
    simpl. rewrite Et. simpl.
    repeat split.
    apply (coh_data _ _ _ _ C). now left.
  - exact (coh_downloads _ _ _ _ C').
Qed.

(** X12. An upload always completes: from progress [p], the next
    [(100 - p) / 10 + 1] firings of the interval (at most 11) are all
    enabled and end in preview at progress 100 with the interval cleared,
    file, table and outstanding read untouched. *)
Theorem upload_completes w ticks :
  reachable' w -> status (st w) = uploading ->
  List.length ticks = Z.to_nat ((100 - progress (st w)) / 10 + 1) ->
  (List.length ticks <= 11)%nat /\
  exists w',
    exec Worksheet XLSX_read sheet_to_json
      (map (fun t => (t, IntervalFired)) ticks) w = Some w' /\
    status (st w') = preview /\ progress (st w') = 100 /\
    interval w' = None /\
    file (st w') = file (st w) /\
    sheetHeaders (st w') = sheetHeaders (st w) /\
    jsonData (st w') = jsonData (st w) /\
    readers w' = readers w.
Proof.
  intros R Hs Hl.
  pose proof (reachable_inv Worksheet XLSX_read sheet_to_json w R) as I.
  destruct (progress_multiple _ (inv_progress _ I)) as (k & Hk & Hp).
  destruct (inv_interval_uploading _ I Hs) as (f & Hi & _).
  assert (E : (100 - progress (st w)) / 10 = Z.of_nat (10 - k)).
  { rewrite Hp. replace (100 - 10 * Z.of_nat k) with (Z.of_nat (10 - k) * 10) by lia.
    apply Z.div_mul. lia. }
  rewrite E in Hl.
  replace (Z.to_nat (Z.of_nat (10 - k) + 1)) with (10 - k + 1)%nat in Hl by lia.
  split; [lia|].
  destruct (ticks_reach_preview Worksheet XLSX_read sheet_to_json f ticks (10 - k) w)
    as (w' & X & P1 & P2 & P3 & P4 & P5 & P6 & P7 & _); auto; [lia|].
  exists w'. repeat split; auto.
Qed.

(** The firings of the interval that finish an upload leave everything but
    the status, the progress and the log alone, and log no error. *)
Lemma ticks_finish f ticks : forall (k : nat) w,
  status (st w) = uploading -> interval w = Some f ->
  progress (st w) = 100 - 10 * Z.of_nat k ->
  List.length ticks = (k + 1)%nat ->
  exists w',
    exec' (map (fun t => (t, IntervalFired)) ticks) w = Some w' /\
    status (st w') = preview /\ progress (st w') = 100 /\
    interval w' = None /\
    file (st w') = file (st w) /\
    sheetHeaders (st w') = sheetHeaders (st w) /\
    jsonData (st w') = jsonData (st w) /\
    readers w' = readers w /\ timeouts w' = timeouts w /\
    toasts w' = toasts w /\ downloads w' = downloads w /\
    errorCount (logs (st w')) = errorCount (logs (st w)).
Proof.
  induction ticks as [|t ticks IH]; intros k w Hs Hi Hp Hl.
  - exfalso. simpl in Hl. lia.
  - simpl. rewrite Hi.
    destruct k as [|k].
    + assert (ticks = []) by (destruct ticks; [reflexivity | simpl in Hl; lia]).
      subst ticks. simpl.
      rewrite (tick_at_100 _ _ _ t w f Hs Hi) by (rewrite Hp; reflexivity).
      eexists; split; [reflexivity|]. simpl. repeat split; reflexivity.
    + assert (Hlt : (progress (st w) >=? 100) = false).
      { rewrite Hp, Z.geb_leb. apply Z.leb_gt. lia. }
      rewrite (tick_below_100 _ _ _ t w f Hs Hi Hlt).
      destruct (IH k (setProgress (progress (st w) + 10) w)) as (w' & Hx & Hw');
        [ assumption | assumption
        | cbn [setProgress with_st st progress]; lia
        | simpl in Hl; lia
        | exists w'; split; [exact Hx | exact Hw'] ].
Qed.

(** The read may end before, between or after the firings of the interval:
    the upload ends in the preview of the table either way. *)
Lemma upload_with_read f rows tr ticks1 : forall ticks2 (k : nat) w,
  status (st w) = uploading -> interval w = Some f ->
  progress (st w) = 100 - 10 * Z.of_nat k ->
  readers w = [f] ->
  decode' (Some (bytes f)) = Js.Return rows -> hasData rows = true ->
  (List.length ticks1 + List.length ticks2 = k + 1)%nat ->
  exists w',
    exec' (map (fun t => (t, IntervalFired)) ticks1
             ++ (tr, ReaderLoaded) :: map (fun t => (t, IntervalFired)) ticks2) w
      = Some w' /\
    status (st w') = preview /\ progress (st w') = 100 /\
    interval w' = None /\ readers w' = [] /\
    jsonData (st w') = rows /\
    sheetHeaders (st w') = Object_keys (hd [] rows) /\
    file (st w') = file (st w) /\
    timeouts w' = timeouts w /\
    toasts w' = toasts w /\ downloads w' = downloads w /\
    errorCount (logs (st w')) = errorCount (logs (st w)).
Proof.
  induction ticks1 as [|t ticks1 IH]; intros ticks2 k w Hs Hi Hp Hr D E Hl.
  - cbn [map app exec enabled]. rewrite Hr.
    unfold dispatch at 1. cbn [handle]. rewrite Hr.
    rewrite (reader_onload_data _ _ _ _ _ _ _ D E).
    rewrite useEffect_same by reflexivity.
    match goal with |- context [exec' _ ?w1] =>
      destruct (ticks_finish f ticks2 k w1)
        as (w' & X & P1 & P2 & P3 & P4 & P5 & P6 & P7 & P8 & P9 & P10 & P11);
        [ exact Hs | exact Hi | exact Hp | simpl in Hl; lia | ]
    end.
    exists w'. split; [exact X|]. simpl in *. repeat split; assumption.
  - cbn [map app exec enabled]. rewrite Hi.
    destruct k as [|k].
    + assert (ticks1 = []) by (destruct ticks1; [reflexivity | simpl in Hl; lia]).
      assert (ticks2 = []) by (destruct ticks2; [reflexivity | subst; simpl in Hl; lia]).
      subst ticks1 ticks2.
      rewrite (tick_at_100 _ _ _ t w f Hs Hi) by (rewrite Hp; reflexivity).
      cbn [map app exec enabled]. simpl readers. rewrite Hr.
      unfold dispatch at 1. cbn [handle]. simpl readers. rewrite Hr.
      rewrite (reader_onload_data _ _ _ _ _ _ _ D E).
      rewrite useEffect_same by reflexivity.
      eexists; split; [reflexivity|]. simpl. repeat split; reflexivity.
    + assert (Hlt : (progress (st w) >=? 100) = false).
      { rewrite Hp, Z.geb_leb. apply Z.leb_gt. lia. }
      rewrite (tick_below_100 _ _ _ t w f Hs Hi Hlt).
      destruct (IH ticks2 k (setProgress (progress (st w) + 10) w))
        as (w' & Hx & Hw');
        [ assumption | assumption
        | cbn [setProgress with_st st progress]; lia
        | assumption | assumption | assumption
        | simpl in Hl; lia
        | exists w'; split; [exact Hx | exact Hw'] ].
Qed.

(** X13. The workflow from end to end. Wherever the drop zone is shown
    (idle or error), submitting an accepted file that decodes to a table
    with data, letting the read end at any point among the eleven firings
    of the interval, confirming and letting the delay elapse, is a run of
    enabled events that ends in completed: the file and its table are on
    screen, nothing is outstanding, exactly one download was added, the
    JSON text of the table, and neither a toast nor an error entry. *)
Theorem workflow_completes w f rows t0 ticks1 tr ticks2 tc td :
  reachable' w -> dropZoneRendered (st w) = true ->
  isAccepted f = true ->
  decode' (Some (bytes f)) = Js.Return rows -> hasData rows = true ->
  (List.length ticks1 + List.length ticks2 = 11)%nat ->
  exists w',
    exec' ((t0, FileSelected (Some f))
             :: map (fun t => (t, IntervalFired)) ticks1
             ++ (tr, ReaderLoaded)
             :: map (fun t => (t, IntervalFired)) ticks2
             ++ [(tc, ConfirmClicked); (td, DelayElapsed true)]) w = Some w' /\
    status (st w') = completed /\
    file (st w') = Some f /\ progress (st w') = 100 /\
    jsonData (st w') = rows /\
    sheetHeaders (st w') = Object_keys (hd [] rows) /\
    interval w' = None /\ readers w' = [] /\ timeouts w' = [] /\
    toasts w' = toasts w /\
    downloads w' =
      (downloads w ++
       [ {| download := "processed_data.json";
            content := JSON.stringify (rows_to_json rows) |} ])%list /\
    errorCount (logs (st w')) = errorCount (logs (st w)).
Proof.
  intros R Hz Ha D E Hl.
  pose proof (reachable_inv Worksheet XLSX_read sheet_to_json w R)
    as [Hiu Hin Hr1 Hr Htp Htn Hp].
  assert (Hs : status (st w) = idle \/ status (st w) = error).
  { unfold dropZoneRendered in Hz. destruct (status (st w)); auto; discriminate. }
  assert (Hrd : readers w = []).
  { destruct (readers w); [reflexivity|].
    destruct (Hr ltac:(discriminate)) as [[?|?] _]; destruct Hs; congruence. }
  assert (Hto : timeouts w = []) by (apply Htn; destruct Hs; congruence).
  cbn [exec enabled]. rewrite Hz.
  set (w1 := dispatch' t0 (FileSelected (Some f)) w).
  assert (W1 : status (st w1) = uploading /\ interval w1 = Some f /\
               progress (st w1) = 0 /\ readers w1 = [f] /\
               file (st w1) = Some f /\ timeouts w1 = [] /\
               toasts w1 = toasts w /\ downloads w1 = downloads w /\
               errorCount (logs (st w1)) = errorCount (logs (st w))).
  { unfold w1, dispatch, handle, handleFileSelect. rewrite Ha.
    unfold useEffect.
    destruct w as [[stat f0 p l dr h j] i r t to d]; simpl in *. subst r t.
    destruct Hs; subst stat; simpl; repeat split; reflexivity. }
  destruct W1 as (S1 & I1 & P1 & R1 & F1 & T1 & O1 & D1 & E1).
  rewrite List.app_comm_cons, List.app_assoc, exec_app.
  destruct (upload_with_read f rows tr ticks1 ticks2 10 w1)
    as (w2 & X2 & S2 & P2 & I2 & R2 & J2 & H2 & F2 & T2 & O2 & D2 & E2);
    [ exact S1 | exact I1 | rewrite P1; reflexivity | exact R1 | exact D | exact E
    | exact Hl | ].
  rewrite X2.
  assert (Hne : (Datatypes.length rows =? 0)%nat = false).
  { unfold hasData in E. destruct rows; [discriminate | reflexivity]. }
  destruct w2 as [[stat2 f2 p2 l2 dr2 h2 j2] i2 r2 t2 to2 d2]; simpl in *.
  subst. rewrite T1.
  unfold renderFooter. simpl. rewrite Hne. simpl.
  unfold dispatch, handle, handleProcess. simpl. rewrite Hne. simpl.
  eexists; split; [reflexivity|]. simpl.
  repeat split; auto; try congruence.
  rewrite !errorCount_cons. simpl. congruence.
Qed.

(** X15. Toasts report failures and nothing else: every toast ever shown is
    destructive, an event shows at most one, and it shows one only when it
    ends in the error state; the status becomes error by no event that shows
    none. The toast of [handleProcess] for missing data is never shown. *)
Theorem toast_only_on_failure w now ev :
  reachable' w -> enabled ev w = true ->
  Forall (fun t => variant t = "destructive") (toasts w) /\
  ((toasts (dispatch' now ev w) = toasts w /\
    (status (st (dispatch' now ev w)) = error -> status (st w) = error)) \/
   (exists t,
      toasts (dispatch' now ev w) = (toasts w ++ [t])%list /\
      variant t = "destructive" /\ t <> noDataToast /\
      status (st (dispatch' now ev w)) = error)).
Proof.
  intros R En.
  split; [exact (coh_toasts _ _ _ _ (reachable_coherent w R))|].
  unfold dispatch.
  destruct (useEffect_frame now (st w)
              (handle Worksheet XLSX_read sheet_to_json now ev w))
    as (-> & _ & _ & _ & _ & _ & _ & _ & -> & _).
  destruct w as [[stat f p l dr hd j] i r t to d]; simpl in *.
  destruct ev; simpl in En |- *; auto.
  - destruct f0 as [sel|]; simpl; [|auto].
    destruct (isAccepted sel); simpl; [left; split; [reflexivity | discriminate]|].
    right. eexists; repeat split; try reflexivity; discriminate.
  - destruct f0 as [sel|]; simpl; [|auto].
    destruct (isAccepted sel); simpl; [left; split; [reflexivity | discriminate]|].
    right. eexists; repeat split; try reflexivity; discriminate.
  - unfold handleProcess. simpl.
    destruct stat; try discriminate. simpl in En.
    destruct (Datatypes.length j =? 0)%nat; [discriminate|].
    left. split; [reflexivity | discriminate].
  - left. split; [reflexivity | discriminate].
  - destruct r as [|f0 r]; [discriminate|].
    unfold reader_onload.
    destruct (decode' (Some (bytes f0))) as [rows|msg]; simpl;
      [destruct (hasData rows); simpl|].
    + left. split; [reflexivity | auto].
    + right. eexists; repeat split; try reflexivity; discriminate.
    + right. eexists; repeat split; try reflexivity; discriminate.
  - destruct r as [|f0 r]; [discriminate|].
    right. eexists; repeat split; try reflexivity; discriminate.
  - destruct i as [f0|]; [|discriminate].
    unfold interval_callback. simpl.
    destruct (p >=? 100); left; (split; [reflexivity | auto; discriminate]).
  - destruct t as [|data t]; [discriminate|].
    destruct dom_ok; simpl.
    + left. split; [reflexivity | discriminate].
    + right. eexists; repeat split; try reflexivity; discriminate.
Qed.

End WorkflowFacts.

(** ** Concrete runs of the further properties *)

(** An instance of X3: the reset of the error state under a hovering drag. *)
Lemma idle_is_pristine_witness :
  SampleReader.reachable idle_again /\
  status (st idle_again) = idle /\
  isDragging (st idle_again) = true /\
  logs (st idle_again) = [] /\
  footerRendered (st idle_again) = false /\
  logCardRendered (st idle_again) = false.
Proof.
  split; [apply run_reachable|]. split; [reflexivity|]. split; [reflexivity|].
  destruct (idle_is_pristine
              SampleReader.Worksheet SampleReader.XLSX_read SampleReader.sheet_to_json
              idle_again (run_reachable _) eq_refl)
    as (Hst & _ & _ & _ & _ & Hf & Hl).
  split; [now rewrite Hst | split; assumption].
Defined.

(** An instance of X4: the preview of [data.csv]. *)
Lemma table_belongs_to_file_witness :
  SampleReader.reachable preview_world /\
  jsonData (st preview_world) = [[("a", CNum (JsNumber.of_N 1)); ("b", CNum (JsNumber.of_N 2))]] /\
  exists f,
    file (st preview_world) = Some f /\
    SampleReader.decode (Some (bytes f)) = Js.Return (jsonData (st preview_world)) /\
    sheetHeaders (st preview_world) = ["a"; "b"].
Proof.
  split; [apply run_reachable|]. split; [reflexivity|].
  destruct (proj2 (table_belongs_to_file
                     SampleReader.Worksheet SampleReader.XLSX_read
                     SampleReader.sheet_to_json preview_world (run_reachable _))
                  ltac:(vm_compute; discriminate))
    as (f & Hf & D & Hh & _).
  exists f. split; [exact Hf|]. split; [exact D|].
  rewrite Hh. reflexivity.
Defined.

(** An instance of X5: the preview of [data.csv]. *)
Lemma progress_by_status_witness :
  SampleReader.reachable preview_world /\
  status (st preview_world) = preview /\
  progress (st preview_world) = 100.
Proof.
  split; [apply run_reachable|]. split; [reflexivity|].
  exact (proj2 (proj2 (progress_by_status
                         SampleReader.Worksheet SampleReader.XLSX_read
                         SampleReader.sheet_to_json preview_world (run_reachable _)))
               (or_introl eq_refl)).
Defined.

(** An instance of X6: the upload of [data.csv], three firings in. *)
Lemma single_flight_witness :
  SampleReader.reachable uploading_world /\
  status (st uploading_world) = uploading /\
  interval uploading_world <> None /\
  (List.length (readers uploading_world) <= 1)%nat.
Proof.
  split; [apply run_reachable|]. split; [reflexivity|].
  destruct (single_flight
              SampleReader.Worksheet SampleReader.XLSX_read SampleReader.sheet_to_json
              uploading_world (run_reachable _))
    as (Hr & _ & Hi & _).
  split; [exact (proj2 Hi eq_refl) | exact Hr].
Defined.

(** An instance of X8: the read of [data.csv] fails during its upload. *)
Lemma failure_is_reported_witness :
  status (st uploading_world) <> error /\
  status (st (SampleReader.dispatch "09:00:02" ReaderFailed uploading_world)) = error /\
  errorCount (logs (st (SampleReader.dispatch "09:00:02" ReaderFailed uploading_world)))
    = 1%nat /\
  toasts (SampleReader.dispatch "09:00:02" ReaderFailed uploading_world)
    = [readFailureToast].
Proof.
  assert (Hne : status (st uploading_world) <> error) by (vm_compute; discriminate).
  split; [exact Hne|]. split; [reflexivity|].
  destruct (failure_is_reported
              SampleReader.Worksheet SampleReader.XLSX_read SampleReader.sheet_to_json
              "09:00:02" ReaderFailed uploading_world Hne eq_refl)
    as (_ & _ & He & _).
  split; [unfold SampleReader.dispatch; rewrite He; reflexivity | reflexivity].
Defined.

(** An instance of X10: the processing of [data.csv] fails. *)
Lemma transition_graph_witness :
  SampleReader.reachable processing_world /\
  enabled (DelayElapsed false) processing_world = true /\
  status (st processing_world) = processing /\
  status (st (SampleReader.dispatch "09:00:06" (DelayElapsed false) processing_world))
    = error /\
  allowed (status (st processing_world))
          (status (st (SampleReader.dispatch "09:00:06" (DelayElapsed false)
                         processing_world))) = true.
Proof.
  split; [apply run_reachable|]. split; [reflexivity|]. split; [reflexivity|].
  split; [reflexivity|].
  exact (transition_graph
           SampleReader.Worksheet SampleReader.XLSX_read SampleReader.sheet_to_json
           processing_world "09:00:06" (DelayElapsed false) (run_reachable _) eq_refl).
Defined.

(** An instance of X11: the processing of [data.csv] goes through. *)
Lemma download_is_displayed_table_witness :
  SampleReader.reachable processing_world /\
  enabled (DelayElapsed true) processing_world = true /\
  jsonData (st processing_world) = [[("a", CNum (JsNumber.of_N 1)); ("b", CNum (JsNumber.of_N 2))]] /\
  downloads (SampleReader.dispatch "09:00:06" (DelayElapsed true) processing_world) =
    [ {| download := "processed_data.json";
         content := JSON.stringify
                      (rows_to_json [[("a", CNum (JsNumber.of_N 1)); ("b", CNum (JsNumber.of_N 2))]]) |} ].
Proof.
  split; [apply run_reachable|]. split; [reflexivity|]. split; [reflexivity|].
  destruct (download_is_displayed_table
              SampleReader.Worksheet SampleReader.XLSX_read SampleReader.sheet_to_json
              processing_world "09:00:06" (DelayElapsed true) (run_reachable _) eq_refl)
    as (Hd & _).
  unfold SampleReader.dispatch. rewrite Hd. reflexivity.
Defined.

(** An instance of X12: from progress 30, eight firings. *)
Lemma upload_completes_witness :
  SampleReader.reachable uploading_world /\
  status (st uploading_world) = uploading /\
  progress (st uploading_world) = 30 /\
  exists w',
    SampleReader.exec (fires 8) uploading_world = Some w' /\
    status (st w') = preview /\ progress (st w') = 100.
Proof.
  split; [apply run_reachable|]. split; [reflexivity|]. split; [reflexivity|].
  destruct (upload_completes
              SampleReader.Worksheet SampleReader.XLSX_read SampleReader.sheet_to_json
              uploading_world (repeat "09:00:01" 8) (run_reachable _) eq_refl eq_refl)
    as (_ & w' & X & Hs & Hp & _).
  exists w'. split; [exact X | split; assumption].
Defined.

(** An instance of X13: [data.csv] submitted in the error state left by
    [notes.txt], its read ending after the fourth firing. *)
Lemma workflow_completes_witness :
  SampleReader.reachable error_world /\
  dropZoneRendered (st error_world) = true /\
  isAccepted csv_ab = true /\
  SampleReader.decode (Some (bytes csv_ab))
    = Js.Return [[("a", CNum (JsNumber.of_N 1)); ("b", CNum (JsNumber.of_N 2))]] /\
  exists w',
    SampleReader.exec
      (("09:00:10", FileSelected (Some csv_ab)) :: fires 4
         ++ ("09:00:01", ReaderLoaded) :: fires 7
         ++ [("09:00:03", ConfirmClicked); ("09:00:06", DelayElapsed true)])%list
      error_world = Some w' /\
    status (st w') = completed /\
    jsonData (st w') = [[("a", CNum (JsNumber.of_N 1)); ("b", CNum (JsNumber.of_N 2))]] /\
    toasts w' = toasts error_world /\
    errorCount (logs (st w')) = 1%nat.
Proof.
  split; [apply run_reachable|]. split; [reflexivity|]. split; [reflexivity|].
  split; [reflexivity|].
  destruct (workflow_completes
              SampleReader.Worksheet SampleReader.XLSX_read SampleReader.sheet_to_json
              error_world csv_ab [[("a", CNum (JsNumber.of_N 1)); ("b", CNum (JsNumber.of_N 2))]]
              "09:00:10" (repeat "09:00:01" 4) "09:00:01" (repeat "09:00:01" 7)
              "09:00:03" "09:00:06"
              (run_reachable _) eq_refl eq_refl eq_refl eq_refl eq_refl)
    as (w' & X & Hs & _ & _ & Hj & _ & _ & _ & _ & Ht & _ & He).
  exists w'. split; [exact X|]. split; [exact Hs|]. split; [exact Hj|].
  split; [exact Ht|]. rewrite He. reflexivity.
Defined.

(** An instance of X15: [notes.txt] submitted again in the error state. *)
Lemma toast_only_on_failure_witness :
  SampleReader.reachable error_world /\
  enabled (FileSelected (Some notes_txt)) error_world = true /\
  toasts error_world = [invalidFormatToast] /\
  Forall (fun t => variant t = "destructive") (toasts error_world).
Proof.
  split; [apply run_reachable|]. split; [reflexivity|]. split; [reflexivity|].
  exact (proj1 (toast_only_on_failure
                  SampleReader.Worksheet SampleReader.XLSX_read
                  SampleReader.sheet_to_json
                  error_world "09:00:09" (FileSelected (Some notes_txt))
                  (run_reachable _) eq_refl)).
Defined.
